(** * Projection-mode PQL compiler: a shallow embedding of
      [pql/projection/matching.py] and the properties of its translation.

    The Python module turns a parsed filter expression (a tree of [ast]
    nodes) into a MongoDB aggregation fragment (nested dicts and lists).
    The embedding below keeps the module's classes, methods and names:
    methods become functions, [raise] becomes the [Raise] result, keyword
    arguments become an explicit [kwargs] value, and attribute dispatch
    ([getattr(self, 'handle_' + name)]) becomes a [match] on the node. *)

From Stdlib Require Import ZArith String Ascii List DecimalString.
From stdpp Require Import base option list gmap strings.

Set Warnings "-register-all".

Local Open Scope string_scope.
Local Open Scope Z_scope.

(** ** Python values *)

(** The values the handlers build: [None], booleans, numbers, strings, lists
    and dicts.  A dict keeps its insertion order and maps hashable keys to
    values, so it is a list of key-value pairs. *)
Inductive Fragment : Type :=
| FNone
| FBool (b : bool)
| FNum (n : Z)
| FStr (s : string)
| FList (items : list Fragment)
| FDict (items : list (Fragment * Fragment)).

(** A dict display whose keys are string literals, [{'k1': v1, 'k2': v2}]. *)
Definition obj (items : list (string * Fragment)) : Fragment :=
  FDict (map (fun kv => (FStr (fst kv), snd kv)) items).

(** [hash(key)] succeeds on scalars and raises [TypeError] on lists and dicts. *)
Definition hashable (key : Fragment) : bool :=
  match key with
  | FList _ | FDict _ => false
  | _ => true
  end.

(** ** Exceptions *)

(** [ParseError(message, col_offset, options)]. *)
Record ParseError : Type := mkParseError {
  message : string;
  col_offset : option Z;
  options : option (list string)
}.

Inductive exn : Type :=
| EParse (err : ParseError)
| ETypeError
| EIndexError
| EAttributeError
| EKeyError.

Inductive result (A : Type) : Type :=
| Ok (a : A)
| Raise (e : exn).
Arguments Ok {A} a.
Arguments Raise {A} e.

Definition bind {A B : Type} (r : result A) (k : A -> result B) : result B :=
  match r with
  | Ok a => k a
  | Raise e => Raise e
  end.

Notation "'let*' x ':=' r 'in' k" := (bind r (fun x => k))
  (at level 10, x name, r at level 100, k at level 200).

(** [list(map(f, xs))]: the first exception stops the traversal. *)
Definition mapM {A B : Type} (f : A -> result B) : list A -> result (list B) :=
  fix go (xs : list A) : result (list B) :=
    match xs with
    | [] => Ok []
    | x :: rest => let* y := f x in let* ys := go rest in Ok (y :: ys)
    end.

Definition is_parse_error {A : Type} (r : result A) : bool :=
  match r with
  | Raise (EParse _) => true
  | _ => false
  end.

(** ** Strings *)

(** The double-quote character of the f-string in [handle_Call]. *)
Definition dquote : string := String "034"%char EmptyString.

(** [s.split('.')[-1]]: the text after the last dot, all of [s] without one. *)
Fixpoint last_segment_from (acc s : string) : string :=
  match s with
  | EmptyString => acc
  | String c rest =>
      if Ascii.eqb c "."%char then last_segment_from EmptyString rest
      else last_segment_from (acc +:+ String c EmptyString) rest
  end.

Definition last_segment (s : string) : string := last_segment_from EmptyString s.

(** [repr] of a bytes object, which is what an f-string prints for it: the
    letter [b], then the bytes between single quotes (double quotes when
    the bytes hold a single quote and no double quote), with the quote and
    the backslash escaped, tab, newline and carriage return as [\t], [\n]
    and [\r], and any other byte outside the printable ASCII range as
    [\x] and two hexadecimal digits. *)
Definition hex_digit (n : N) : ascii :=
  match String.get (N.to_nat n) "0123456789abcdef" with
  | Some c => c
  | None => "0"%char
  end.

Definition backslash : ascii := "092"%char.
Definition single_quote : ascii := "039"%char.
Definition double_quote : ascii := "034"%char.

Fixpoint has_byte (c : ascii) (s : string) : bool :=
  match s with
  | EmptyString => false
  | String d rest => Ascii.eqb c d || has_byte c rest
  end.

Fixpoint bytes_repr_body (quote : ascii) (s : string) : string :=
  match s with
  | EmptyString => EmptyString
  | String c rest =>
      let n := N_of_ascii c in
      (if Ascii.eqb c quote || Ascii.eqb c backslash then String backslash (String c EmptyString)
       else if Ascii.eqb c "009"%char then String backslash "t"
       else if Ascii.eqb c "010"%char then String backslash "n"
       else if Ascii.eqb c "013"%char then String backslash "r"
       else if (n <? 32)%N || (127 <=? n)%N then
         String backslash (String "x"%char (String (hex_digit (n / 16)%N)
                                                   (String (hex_digit (n mod 16)%N) EmptyString)))
       else String c EmptyString)
      +:+ bytes_repr_body quote rest
  end.

Definition bytes_repr (s : string) : string :=
  let quote :=
    if has_byte single_quote s && negb (has_byte double_quote s)
    then double_quote else single_quote in
  String "b"%char (String quote (bytes_repr_body quote s +:+ String quote EmptyString)).

(** [str(n)] for a length. *)
Definition str_of_nat (n : nat) : string := NilZero.string_of_uint (Nat.to_uint n).

(** [f'{x}'] for a value that is a string or [None]. *)
Definition fmt (x : option string) : string :=
  match x with
  | Some s => s
  | None => "None"
  end.

(** ** The expression tree ([ast] nodes of the Python versions that still
       produce [Str], [Num] and [NameConstant]) *)

Module ast.

Inductive boolop : Type := And | Or.
Inductive unaryop : Type := Invert | Not | UAdd | USub.
Inductive cmpop : Type := Eq | NotEq | Lt | LtE | Gt | GtE | Is | IsNot | In | NotIn.

(** Every expression node carries its [col_offset].  The payload of a
    [Bytes] literal is its sequence of bytes. *)
Inductive expr : Type :=
| BoolOp (op : boolop) (values : list expr) (col : Z)
| UnaryOp (op : unaryop) (operand : expr) (col : Z)
| Compare (left : expr) (ops : list cmpop) (comparators : list expr) (col : Z)
| Call (func : expr) (args : list expr) (col : Z)
| Num (n : Z) (col : Z)
| Str (s : string) (col : Z)
| Bytes (s : string) (col : Z)
| NameConstant (value : option bool) (col : Z)
| Attribute (value : expr) (attr : string) (col : Z)
| Name (id : string) (col : Z)
| List (elts : list expr) (col : Z)
| Dict (keys : list expr) (values : list expr) (col : Z).

Definition col_offset (node : expr) : Z :=
  match node with
  | BoolOp _ _ c | UnaryOp _ _ c | Compare _ _ _ c | Call _ _ c
  | Num _ c | Str _ c | Bytes _ c | NameConstant _ c | Attribute _ _ c | Name _ c
  | List _ c | Dict _ _ c => c
  end.

(** [node.__class__.__name__]. *)
Definition class_name (node : expr) : string :=
  match node with
  | BoolOp _ _ _ => "BoolOp"
  | UnaryOp _ _ _ => "UnaryOp"
  | Compare _ _ _ _ => "Compare"
  | Call _ _ _ => "Call"
  | Num _ _ => "Num"
  | Str _ _ => "Str"
  | Bytes _ _ => "Bytes"
  | NameConstant _ _ => "NameConstant"
  | Attribute _ _ _ => "Attribute"
  | Name _ _ => "Name"
  | List _ _ => "List"
  | Dict _ _ _ => "Dict"
  end.

End ast.

(** ** Keyword arguments *)

(** The three keywords of the module's docstring.  [None] stands for a keyword
    that is [None] or left at its default [None]; the field sets are sets of
    field paths. *)
Record Context : Type := mkContext {
  compared_field : option string;
  array_fields : option (gset string);
  complex_fields : option (gset string)
}.

(** What a field, operator or function handler receives as [**kwargs]:
    nothing at all ([parse_arg] and [handle_Dict] forward no keyword), or the
    three keywords ([ProjectionMap.handle] and [handle_Eq] always name all
    three). *)
Inductive kwargs : Type :=
| NoKw
| Kw (c : Context).

Definition no_context : Context := mkContext None None None.

(** The values a handler declared with [compared_field=None, array_fields=None,
    complex_fields=None] sees. *)
Definition defaults (kw : kwargs) : Context :=
  match kw with
  | NoKw => no_context
  | Kw c => c
  end.

(** [fields and field in fields]: false on [None], on the empty set and on a
    set without [field]. *)
Definition truthy_and_in (fields : option (gset string)) (field : option string) : bool :=
  match fields with
  | None => false
  | Some s =>
      if decide (s = ∅) then false
      else match field with
           | Some f => bool_decide (f ∈ s)
           | None => false
           end
  end.

(** The reference to the compared field that [handle_Str], [handle_Num] and
    [handle_regexMatch] each compute:
    [f'$${compared_field.split(".")[-1]}'] under an array field, else
    [f'${compared_field}']. *)
Definition field_reference (c : Context) : string :=
  if truthy_and_in (array_fields c) (compared_field c)
  then "$$" +:+ last_segment (fmt (compared_field c))
  else "$" +:+ fmt (compared_field c).

(** ** Field types *)

(** The field classes of this module that can be instantiated as a field's
    type; [ProjectionListField] and [ProjectionDictField] carry their
    [_field]. *)
Inductive field_type : Type :=
| ProjectionStringField
| ProjectionIntField
| ProjectionBoolField
| ProjectionListField (_field : option field_type)
| ProjectionDictField (_field : option field_type)
| ProjectionGenericField.

(** [self._field or ProjectionGenericField()]. *)
Definition field_or_generic (self : field_type) : field_type :=
  match self with
  | ProjectionDictField (Some f) => f
  | _ => ProjectionGenericField
  end.

(** ** What the module imports *)

(** The classes imported from [pql.matching] are not part of this module.
    Their contribution to a class defined here is what the method resolution
    order leaves to them: the handlers for the nodes, operators and function
    names this module does not define, the name tables and the
    field-to-field comparison.  They are taken as parameters. *)
Record Base : Type := mkBase {
  (** [self.SPECIAL_VALUES] of a field class. *)
  SPECIAL_VALUES : field_type -> gmap string Fragment;
  (** [self.resolve(node)(node, **kwargs)] on a field class for a node whose
      handler is not defined in this module. *)
  inherited_field_handler : field_type -> ast.expr -> kwargs -> result Fragment;
  (** [OP_CLASS(field).resolve(operator)(right, **kwargs)] for an operator
      other than [==]. *)
  inherited_operator : field_type -> ast.cmpop -> ast.expr -> kwargs -> result Fragment;
  (** [getattr(ProjectionGenericFunc(), 'handle_' + name)] for a function of
      [IntFunc], [ListFunc], [DateTimeFunc] or [BaseFunc]; [None] is
      [AttributeError]. *)
  inherited_func : string -> option (ast.expr -> kwargs -> result Fragment);
  (** [ProjectionGenericFunc().get_options()]. *)
  func_options : option (list string);
  (** [self.resolve(node)(node, **kwargs)] on the parser for a node other
      than [Call], [BoolOp], [UnaryOp] and [Compare]. *)
  inherited_parser_handler : ast.expr -> Context -> result Fragment;
  (** [BaseParser.handle_field_comparison]. *)
  handle_field_comparison : ast.expr -> result Fragment
}.

(** Modelled from the spec: [BaseAstHandler.resolve] is imported; a node with no
    handler fails with the error that [handle_Compare] recognises by the
    start of its message. *)
Definition unsupported_syntax (thing_name : string) (col : option Z) : exn :=
  EParse (mkParseError ("Unsupported syntax (" +:+ thing_name +:+ ").") col None).

(** Modelled from the spec: the error of the imported [BaseFunc.get_arg] for a
    missing argument; its message formats [node.func.id]. *)
Definition missing_argument (func : ast.expr) (col : Z) : exn :=
  match func with
  | ast.Name id _ => EParse (mkParseError ("Missing argument in " +:+ id +:+ ".") (Some col) None)
  | _ => EAttributeError
  end.

(** Modelled from the spec: [BaseFunc.get_arg] is imported; a positional
    argument that is missing is a [ParseError], which is what makes the
    second argument of [regexMatch] optional. *)
Definition get_arg (node : ast.expr) (index : nat) : result ast.expr :=
  match node with
  | ast.Call func args col =>
      match args !! index with
      | Some arg => Ok arg
      | None => Raise (missing_argument func col)
      end
  | _ => Raise EAttributeError
  end.

(** Modelled from the spec: [BaseParser.handle_Not] is imported; [not] is
    rendered as [$not], and the parser has no handler for the other unary
    operators. *)
Definition handle_unaryop (op : ast.unaryop) : result string :=
  match op with
  | ast.Not => Ok "$not"
  | ast.Invert => Raise (unsupported_syntax "Invert" None)
  | ast.UAdd => Raise (unsupported_syntax "UAdd" None)
  | ast.USub => Raise (unsupported_syntax "USub" None)
  end.

(** ** [FieldName] *)

Module FieldName.

Fixpoint handle (node : ast.expr) : result string :=
  match node with
  | ast.Str s _ => Ok s
  | ast.Name id _ => Ok id
  | ast.Attribute value attr _ =>
      let* base := handle value in Ok (base +:+ "." +:+ attr)
  | _ => Raise (unsupported_syntax (ast.class_name node) (Some (ast.col_offset node)))
  end.

End FieldName.

(** ** Function handlers *)

Module ProjectionFunc.

(** [parse_arg(node, index, field)] is [field.handle(get_arg(node, index))],
    with no keyword forwarded.  [handle] is the handler of [field]; the
    argument list is walked down to [index] so that [handle] is only ever
    applied to an argument of the call. *)
Definition parse_arg (handle : ast.expr -> result Fragment) (func : ast.expr) (col : Z)
  : list ast.expr -> nat -> result Fragment :=
  fix go (args : list ast.expr) (index : nat) : result Fragment :=
    match args with
    | [] => Raise (missing_argument func col)
    | arg :: rest =>
        match index with
        | O => handle arg
        | S i => go rest i
        end
    end.

(** [handle_exists(self, node)] declares no keyword: calling it with any is a
    [TypeError]. *)
Definition handle_exists (parse_bool : nat -> result Fragment) (kw : kwargs) : result Fragment :=
  match kw with
  | Kw _ => Raise ETypeError
  | NoKw => let* arg := parse_bool 0%nat in Ok (obj [("$exists", arg)])
  end.

End ProjectionFunc.

Module ProjectionStringFunc.

(** The result dict of [handle_regexMatch], given the items of its
    [$regexMatch] document. *)
Definition regexMatch_result (field : string) (items : list (string * Fragment)) : Fragment :=
  obj [("$and", FList [
    obj [("$eq", FList [FStr "string"; obj [("$type", FStr field)]])];
    obj [("$regexMatch", obj items)]])].

Definition handle_regexMatch (parse_string : nat -> result Fragment) (kw : kwargs)
  : result Fragment :=
  let field := field_reference (defaults kw) in
  let* regex := parse_string 0%nat in
  match parse_string 1%nat with
  | Ok opts =>
      Ok (regexMatch_result field [("input", FStr field); ("regex", regex); ("options", opts)])
  | Raise (EParse _) =>
      Ok (regexMatch_result field [("input", FStr field); ("regex", regex)])
  | Raise e => Raise e
  end.

End ProjectionStringFunc.

Module ProjectionGenericFunc.

(** [ProjectionFunc.handle] on an instance of [ProjectionGenericFunc]:
    [getattr(self, 'handle_' + node.func.id)] finds [handle_exists] and
    [handle_regexMatch] in this module and anything else in the imported
    function classes.  [handle field arg] is [field.handle(arg)]. *)
Definition handle (B : Base) (handle : field_type -> ast.expr -> result Fragment)
    (func : ast.expr) (args : list ast.expr) (col : Z) (kw : kwargs) : result Fragment :=
  match func with
  | ast.Name id _ =>
      if String.eqb id "exists" then
        ProjectionFunc.handle_exists
          (ProjectionFunc.parse_arg (handle ProjectionBoolField) func col args) kw
      else if String.eqb id "regexMatch" then
        ProjectionStringFunc.handle_regexMatch
          (ProjectionFunc.parse_arg (handle ProjectionStringField) func col args) kw
      else
        match inherited_func B id with
        | Some handler => handler (ast.Call func args col) kw
        | None =>
            Raise (EParse (mkParseError ("Unsupported function (" +:+ id +:+ ").")
                                        (Some col) (func_options B)))
        end
  | _ => Raise EAttributeError
  end.

End ProjectionGenericFunc.

(** ** Field types: literals *)

Module ProjectionField.

(** [handle_Name(self, node, compared_field=None, **kwargs)]. *)
Definition handle_Name (B : Base) (self : field_type) (id : string) (col : Z) (kw : kwargs)
  : result Fragment :=
  match SPECIAL_VALUES B self !! id with
  | Some value =>
      Ok (obj [("$eq", FList [FStr ("$" +:+ fmt (compared_field (defaults kw))); value])])
  | None =>
      Raise (EParse (mkParseError ("Invalid name: " +:+ id) (Some col)
                                  (Some (map_to_list (SPECIAL_VALUES B self)).*1)))
  end.

(** [ProjectionStringField.handle_Str]. *)
Definition handle_Str (s : string) (kw : kwargs) : result Fragment :=
  match compared_field (defaults kw) with
  | None | Some EmptyString => Ok (FStr s)
  | Some _ => Ok (obj [("$eq", FList [FStr (field_reference (defaults kw)); FStr s])])
  end.

(** [ProjectionIntField.handle_Num]. *)
Definition handle_Num (n : Z) (kw : kwargs) : result Fragment :=
  Ok (obj [("$eq", FList [FStr (field_reference (defaults kw)); FNum n])]).

(** [ProjectionDictField.handle_Dict], given the translations of the keys and
    of the values: one single-entry dict per pair of [zip], the key first. *)
Definition handle_Dict (keys values : list (result Fragment)) : result Fragment :=
  let* items :=
    mapM (fun kv : result Fragment * result Fragment =>
            let* key := fst kv in
            let* value := snd kv in
            if hashable key then Ok (FDict [(key, value)]) else Raise ETypeError)
         (zip keys values) in
  Ok (obj [("$and", FList items)]).

(** [self.handle(node, **kwargs)] on an instance of the class [self]: the
    handler is looked up by the node's class along the method resolution
    order, which reaches this module's definitions before the imported
    ones. *)
Fixpoint handle (B : Base) (node : ast.expr) (self : field_type) (kw : kwargs)
  {struct node} : result Fragment :=
  match node, self with
  | ast.Name id col, _ => handle_Name B self id col kw
  | ast.Str s _, (ProjectionStringField | ProjectionGenericField) => handle_Str s kw
  | ast.Num n _, (ProjectionIntField | ProjectionGenericField) => handle_Num n kw
  | ast.Dict keys values _, (ProjectionDictField _ | ProjectionGenericField) =>
      handle_Dict
        (map (fun key => handle B key ProjectionStringField NoKw) keys)
        (map (fun value => handle B value (field_or_generic self) NoKw) values)
  | ast.Call func args col, ProjectionGenericField =>
      ProjectionGenericFunc.handle B (fun field arg => handle B arg field NoKw)
                                   func args col kw
  | _, _ => inherited_field_handler B self node kw
  end.

End ProjectionField.

(** ** Operators *)

Module ProjectionOperator.

(** [handle_Eq] names the three keywords when it calls the field. *)
Definition handle_Eq (B : Base) (field : field_type) (node : ast.expr) (kw : kwargs)
  : result Fragment :=
  ProjectionField.handle B node field (Kw (defaults kw)).

End ProjectionOperator.

(** [ProjectionField.handle_operator_with_right_and_left]:
    [self.OP_CLASS(self).resolve(operator)(right, **kwargs)]. *)
Definition handle_operator_with_right_and_left (B : Base) (self : field_type)
    (operator : ast.cmpop) (right : ast.expr) (kw : kwargs) : result Fragment :=
  match operator with
  | ast.Eq => ProjectionOperator.handle_Eq B self right kw
  | _ => inherited_operator B self operator right kw
  end.

(** ** Operator maps *)

Module OperatorMap.

(** [handle(self, operator, left, right)]: the condition keyed by the field.
    [resolve_field] and [resolve_type] are the subclass's;
    [handle_operator_and_right] is the imported method of the field's
    type. *)
Definition handle (resolve_field : ast.expr -> result string)
    (resolve_type : string -> result field_type)
    (handle_operator_and_right : field_type -> ast.cmpop -> ast.expr -> result Fragment)
    (operator : ast.cmpop) (left right : ast.expr) : result Fragment :=
  let* field := resolve_field left in
  let* type := resolve_type field in
  let* condition := handle_operator_and_right type operator right in
  Ok (FDict [(FStr field, condition)]).

End OperatorMap.

Module ProjectionMap.

Definition resolve_field (node : ast.expr) : result string := FieldName.handle node.

(** The dict returned under [if (complex_fields and ...) and (array_fields
    and ...)]. *)
Definition any_element_true (field : string) (condition : Fragment) : Fragment :=
  obj [("$and", FList [
    obj [("$isArray", FStr ("$" +:+ field))];
    obj [("$anyElementTrue", obj [("$map", obj [
      ("input", obj [("$cond", obj [
         ("if", obj [("$isArray", FStr ("$" +:+ field))]);
         ("then", FStr ("$" +:+ field));
         ("else", FList [])])]);
      ("as", FStr (last_segment field));
      ("in", obj [("$cond", obj [
         ("if", condition);
         ("then", FBool true);
         ("else", FBool false)])])])])]])].

(** [handle(self, operator, left, right, compared_field=None,
    array_fields=None, complex_fields=None)]; [resolve_type] is the
    subclass's. *)
Definition handle (B : Base) (resolve_type : string -> result field_type)
    (operator : ast.cmpop) (left right : ast.expr) (c : Context) : result Fragment :=
  let* field := resolve_field left in
  let* type := resolve_type field in
  let* condition :=
    handle_operator_with_right_and_left B type operator right
      (Kw (mkContext (Some field) (array_fields c) (complex_fields c))) in
  if truthy_and_in (complex_fields c) (Some field)
     && truthy_and_in (array_fields c) (Some field)
  then Ok (any_element_true field condition)
  else Ok condition.

End ProjectionMap.

Module ProjectionSchemaFreeOperatorMap.

Definition resolve_type (field : string) : result field_type := Ok ProjectionGenericField.

Definition handle (B : Base) : ast.cmpop -> ast.expr -> ast.expr -> Context -> result Fragment :=
  ProjectionMap.handle B resolve_type.

End ProjectionSchemaFreeOperatorMap.

Module SchemaAwareOperatorMap.

(** [resolve_field]: the [KeyError] of [self._field_to_type[field]] becomes a
    [ParseError] that lists [self._field_to_type.keys()]. *)
Definition resolve_field (_field_to_type : gmap string field_type) (node : ast.expr)
  : result string :=
  let* field := FieldName.handle node in
  match _field_to_type !! field with
  | Some _ => Ok field
  | None =>
      Raise (EParse (mkParseError ("Field not found: " +:+ field +:+ ".")
                                  (Some (ast.col_offset node))
                                  (Some (map_to_list _field_to_type).*1)))
  end.

Definition resolve_type (_field_to_type : gmap string field_type) (field : string)
  : result field_type :=
  match _field_to_type !! field with
  | Some type => Ok type
  | None => Raise EKeyError
  end.

(** [handle] is inherited from [OperatorMap]. *)
Definition handle (_field_to_type : gmap string field_type)
    (handle_operator_and_right : field_type -> ast.cmpop -> ast.expr -> result Fragment)
  : ast.cmpop -> ast.expr -> ast.expr -> result Fragment :=
  OperatorMap.handle (resolve_field _field_to_type) (resolve_type _field_to_type)
                     handle_operator_and_right.

End SchemaAwareOperatorMap.

(** ** The parser *)

Module ProjectionParser.

(** What [self._operator_map.handle(left=..., operator=..., right=...,
    **kwargs)] is called on. *)
Definition operator_map : Type :=
  ast.cmpop -> ast.expr -> ast.expr -> Context -> result Fragment.

(** [handle_Call]: [op.func.id], [op.args[0]] and [.s] are read with no
    check.  The nodes with an attribute [s] are the string and the bytes
    literals; the f-string prints the bytes as their [repr]. *)
Definition handle_Call (func : ast.expr) (args : list ast.expr) : result Fragment :=
  match func with
  | ast.Name id _ =>
      if negb (String.eqb id "search") then
        Raise (EParse (mkParseError ("Unsupported method call " +:+ id) None None))
      else
        match args with
        | [] => Raise EIndexError
        | ast.Str s _ :: _ =>
            Ok (obj [("$text", obj [("$search", FStr (dquote +:+ s +:+ dquote));
                                    ("$caseSensitive", FBool false)])])
        | ast.Bytes s _ :: _ =>
            Ok (obj [("$text", obj [("$search", FStr (dquote +:+ bytes_repr s +:+ dquote));
                                    ("$caseSensitive", FBool false)])])
        | _ :: _ => Raise EAttributeError
        end
  | _ => Raise EAttributeError
  end.

(** [handle_And] and [handle_Or]. *)
Definition handle_boolop (op : ast.boolop) : string :=
  match op with
  | ast.And => "$and"
  | ast.Or => "$or"
  end.

(** [list(operator.items())[0]]. *)
Definition first_item (operator : Fragment) : result (Fragment * Fragment) :=
  match operator with
  | FDict [] => Raise EIndexError
  | FDict (item :: _) => Ok item
  | _ => Raise EAttributeError
  end.

(** [handle_UnaryOp], given the translation of the operand. *)
Definition handle_UnaryOp (op : ast.unaryop) (operand : result Fragment) : result Fragment :=
  let* operator := operand in
  let* item := first_item operator in
  let* key := handle_unaryop op in
  Ok (FDict [(FStr key, FDict [item])]).

Definition handle_Compare (B : Base) (_operator_map : operator_map) (compare : ast.expr)
    (c : Context) : result Fragment :=
  match compare with
  | ast.Compare left_ ops comparators _ =>
      match comparators with
      | [right_] =>
          match ops with
          | [] => Raise EIndexError
          | operator :: _ =>
              match _operator_map operator left_ right_ c with
              | Raise (EParse err) =>
                  if String.prefix "Unsupported syntax" (message err)
                  then handle_field_comparison B compare
                  else Raise (EParse err)
              | outcome => outcome
              end
          end
      | [] => Raise EIndexError
      | _ :: second :: _ =>
          Raise (EParse (mkParseError
                           ("Invalid number of comparators: "
                              +:+ str_of_nat (length comparators))
                           (Some (ast.col_offset second)) None))
      end
  | _ => Raise EAttributeError
  end.

(** [self.handle(thing, **kwargs)] on the parser. *)
Fixpoint handle (B : Base) (_operator_map : operator_map) (node : ast.expr) (c : Context)
  {struct node} : result Fragment :=
  match node with
  | ast.Call func args _ => handle_Call func args
  | ast.BoolOp op values _ =>
      let* operands := mapM (fun value => handle B _operator_map value c) values in
      Ok (obj [(handle_boolop op, FList operands)])
  | ast.UnaryOp op operand _ => handle_UnaryOp op (handle B _operator_map operand c)
  | ast.Compare _ _ _ _ => handle_Compare B _operator_map node c
  | _ => inherited_parser_handler B node c
  end.

End ProjectionParser.

Module ProjectionSchemaFreeParser.

Definition handle (B : Base) : ast.expr -> Context -> result Fragment :=
  ProjectionParser.handle B (ProjectionSchemaFreeOperatorMap.handle B).

End ProjectionSchemaFreeParser.

(** ** An instance of the imported classes *)

(** Modelled from the spec: the imported classes, reduced to what the spec says
    of them.  The only names a field accepts are the special values
    ([None]/[null] everywhere, the booleans on the Bool and Generic types); a
    node, operator or function with no handler in this module is an
    unsupported construct; the field-to-field translator, which the spec
    leaves to its collaborator, answers with a marker. *)
Definition spec_special_values (self : field_type) : gmap string Fragment :=
  match self with
  | ProjectionBoolField | ProjectionGenericField =>
      list_to_map [("None", FNone); ("null", FNone);
                   ("False", FBool false); ("True", FBool true);
                   ("false", FBool false); ("true", FBool true)]
  | _ => list_to_map [("None", FNone); ("null", FNone)]
  end.

(** Modelled from the spec: the handlers of the imported field classes, for the
    literal kinds of the spec's data model that this module leaves to them.
    [True], [False] and [None] written as constants render as themselves
    where the type accepts them; any other node is an unsupported
    construct. *)
Definition spec_field_handler (self : field_type) (node : ast.expr) (kw : kwargs)
  : result Fragment :=
  match node, self with
  | ast.NameConstant None _, _ => Ok FNone
  | ast.NameConstant (Some b) _, (ProjectionBoolField | ProjectionGenericField) => Ok (FBool b)
  | _, _ => Raise (unsupported_syntax (ast.class_name node) (Some (ast.col_offset node)))
  end.

(** [operator.__class__.__name__]. *)
Definition cmpop_name (op : ast.cmpop) : string :=
  match op with
  | ast.Eq => "Eq" | ast.NotEq => "NotEq" | ast.Lt => "Lt" | ast.LtE => "LtE"
  | ast.Gt => "Gt" | ast.GtE => "GtE" | ast.Is => "Is" | ast.IsNot => "IsNot"
  | ast.In => "In" | ast.NotIn => "NotIn"
  end.

(** Modelled from the spec: the fragment of the imported field-to-field
    comparison translator, of which the spec gives only the signature. *)
Definition field_comparison_marker : Fragment := obj [("$expr", FStr "field comparison")].

(** Modelled from the spec: the imported classes as one instance of [Base]. *)
Definition spec_base : Base := {|
  SPECIAL_VALUES := spec_special_values;
  inherited_field_handler := spec_field_handler;
  inherited_operator := fun _ op _ _ => Raise (unsupported_syntax (cmpop_name op) None);
  inherited_func := fun _ => None;
  func_options := None;
  inherited_parser_handler := fun node _ =>
    Raise (unsupported_syntax (ast.class_name node) (Some (ast.col_offset node)));
  handle_field_comparison := fun _ => Ok field_comparison_marker
|}.

(** * Properties *)

(** [P] is in a field set that was passed: the reading of "P is in
    array_fields" for a keyword that may be [None]. *)
Definition in_fields (fields : option (gset string)) (P : string) : Prop :=
  exists s, fields = Some s /\ P ∈ s.

(** [s] has no dot: it is a single segment. *)
Fixpoint dotless (s : string) : bool :=
  match s with
  | EmptyString => true
  | String c rest => negb (Ascii.eqb c "."%char) && dotless rest
  end.

(** The nodes [FieldName] has a handler for, all the way down. *)
Fixpoint is_path (node : ast.expr) : bool :=
  match node with
  | ast.Str _ _ | ast.Name _ _ => true
  | ast.Attribute value _ _ => is_path value
  | _ => false
  end.

(** [base.a1.a2...]: the node of a chain of attribute accesses, and the
    dotted path it stands for. *)
Definition attributes (base : ast.expr) (attrs : list (string * Z)) : ast.expr :=
  fold_left (fun value a => ast.Attribute value a.1 a.2) attrs base.

Definition dotted (base : string) (attrs : list (string * Z)) : string :=
  fold_left (fun path a => path +:+ "." +:+ a.1) attrs base.

(** The nodes the parser translates with its own handlers, all the way down
    to the comparisons and calls. *)
Fixpoint parser_node (node : ast.expr) : bool :=
  match node with
  | ast.BoolOp _ values _ => forallb parser_node values
  | ast.UnaryOp _ operand _ => parser_node operand
  | ast.Compare _ _ _ _ | ast.Call _ _ _ => true
  | _ => false
  end.

(** The contexts of the closed instances below: no field set, [tags] an
    array, [tags] an array of documents. *)
Definition tags_array : Context := mkContext None (Some {["tags"]}) None.

Definition tags_array_of_documents : Context :=
  mkContext None (Some {["tags"]}) (Some {["tags"]}).

(** [left == right]. *)
Definition equals (left right : ast.expr) : ast.expr :=
  ast.Compare left [ast.Eq] [right] (ast.col_offset left).

(** A declared schema for the closed instances. *)
Definition example_schema : gmap string field_type :=
  {["name" := ProjectionStringField; "age" := ProjectionIntField]}.

(** An operator map that fails with a [ParseError] of the given message, at
    column 5 and with no options. *)
Definition failing_operator_map (message : string) : ProjectionParser.operator_map :=
  fun _ _ _ _ => Raise (EParse (mkParseError message (Some 5) None)).

(** The test of the [except] clause of [handle_Compare]: the exception is a
    [ParseError] whose message starts with "Unsupported syntax". *)
Definition unsupported_syntax_message (e : exn) : Prop :=
  exists err, e = EParse err /\ String.prefix "Unsupported syntax" (message err) = true.

(** ** Helpers of the model *)

(** [last_segment] is [split('.')[-1]]: it forgets everything up to a dot
    and keeps a segment without one. *)
Lemma last_segment_from_dotless acc s :
  dotless s = true -> last_segment_from acc s = acc +:+ s.
Proof.
  revert acc. induction s as [|ch rest IH]; intros acc Hs.
  - cbn [last_segment_from]. induction acc as [|a acc IHacc]; [reflexivity|].
    change (String a acc +:+ "") with (String a (acc +:+ "")). f_equal. exact IHacc.
  - cbn in Hs. apply andb_true_iff in Hs as [Hch Hrest].
    cbn [last_segment_from]. apply negb_true_iff in Hch. rewrite Hch.
    rewrite (IH _ Hrest).
    clear. induction acc as [|a acc IHacc]; [reflexivity|].
    change ((String a acc +:+ String ch "") +:+ rest)
      with (String a ((acc +:+ String ch "") +:+ rest)).
    change (String a acc +:+ String ch rest) with (String a (acc +:+ String ch rest)).
    f_equal. exact IHacc.
Qed.

Lemma last_segment_dotless s : dotless s = true -> last_segment s = s.
Proof. intros Hs. unfold last_segment. rewrite (last_segment_from_dotless _ _ Hs). reflexivity. Qed.

Lemma last_segment_from_after_dot acc base rest :
  last_segment_from acc (base +:+ "." +:+ rest) = last_segment rest.
Proof.
  revert acc. induction base as [|ch base IH]; intros acc.
  - reflexivity.
  - change (String ch base +:+ "." +:+ rest) with (String ch (base +:+ "." +:+ rest)).
    cbn [last_segment_from]. destruct (Ascii.eqb ch "."); apply IH.
Qed.

Lemma last_segment_after_dot base rest :
  last_segment (base +:+ "." +:+ rest) = last_segment rest.
Proof. apply last_segment_from_after_dot. Qed.

(** X4: the alias of an attribute path is its attribute name: an attribute
    access with a dot-free name on a base that resolves gives a path whose
    last segment is that name. *)
Lemma last_segment_attribute value attr col base :
  FieldName.handle value = Ok base ->
  dotless attr = true ->
  exists P, FieldName.handle (ast.Attribute value attr col) = Ok P /\ last_segment P = attr.
Proof.
  intros Hvalue Hattr. exists (base +:+ "." +:+ attr). split.
  - cbn [FieldName.handle]. rewrite Hvalue. reflexivity.
  - rewrite last_segment_after_dot. apply last_segment_dotless, Hattr.
Qed.

(** [parse_arg] is [get_arg] followed by the field's handler. *)
Lemma parse_arg_get_arg handle func args col index :
  ProjectionFunc.parse_arg handle func col args index
  = let* arg := get_arg (ast.Call func args col) index in handle arg.
Proof.
  cbn [get_arg]. revert index. induction args as [|arg rest IH]; intros index.
  - destruct index; reflexivity.
  - destruct index as [|i]; [reflexivity|]. cbn [ProjectionFunc.parse_arg]. apply IH.
Qed.

(** ** Field sets and elevation *)

Lemma truthy_and_in_true fields P :
  truthy_and_in fields (Some P) = true <-> in_fields fields P.
Proof.
  unfold truthy_and_in, in_fields. destruct fields as [s|].
  - destruct (decide (s = ∅)) as [->|Hne].
    + split; [discriminate|]. intros (s & [= <-] & Hin). set_solver.
    + rewrite bool_decide_eq_true. split.
      * intros Hin. exists s. auto.
      * intros (s' & [= <-] & Hin). exact Hin.
  - split; [discriminate|]. intros (s & Hs & _). discriminate.
Qed.

Lemma truthy_and_in_false fields P :
  truthy_and_in fields (Some P) = false <-> ~ in_fields fields P.
Proof.
  rewrite <- truthy_and_in_true. destruct (truthy_and_in fields (Some P)).
  - split; [discriminate|]. intros H. exfalso. apply H. reflexivity.
  - split; [discriminate|]. reflexivity.
Qed.

(** The guard of [ProjectionMap.handle] holds exactly for a field in both
    sets. *)
Lemma elevation_guard c P :
  truthy_and_in (complex_fields c) (Some P) && truthy_and_in (array_fields c) (Some P) = true
  <-> in_fields (array_fields c) P /\ in_fields (complex_fields c) P.
Proof.
  rewrite andb_true_iff, !truthy_and_in_true. tauto.
Qed.

(** The two outcomes of [ProjectionMap.handle] once the field and the inner
    condition are known. *)
Lemma ProjectionMap_handle_outcome B resolve_type operator left right c P type cond :
  FieldName.handle left = Ok P ->
  resolve_type P = Ok type ->
  handle_operator_with_right_and_left B type operator right
    (Kw (mkContext (Some P) (array_fields c) (complex_fields c))) = Ok cond ->
  ProjectionMap.handle B resolve_type operator left right c =
    if truthy_and_in (complex_fields c) (Some P) && truthy_and_in (array_fields c) (Some P)
    then Ok (ProjectionMap.any_element_true P cond)
    else Ok cond.
Proof.
  intros Hfield Htype Hcond. unfold ProjectionMap.handle, ProjectionMap.resolve_field.
  rewrite Hfield. simpl. rewrite Htype. simpl. rewrite Hcond. reflexivity.
Qed.

(** The reference rule of the string, number and [regexMatch] sites. *)
Lemma field_reference_array P arr cplx :
  in_fields arr P ->
  field_reference (mkContext (Some P) arr cplx) = "$$" +:+ last_segment P.
Proof.
  intros Hin. unfold field_reference. simpl.
  apply truthy_and_in_true in Hin. rewrite Hin. reflexivity.
Qed.

Lemma field_reference_root P arr cplx :
  ~ in_fields arr P ->
  field_reference (mkContext (Some P) arr cplx) = "$" +:+ P.
Proof.
  intros Hin. unfold field_reference. simpl.
  apply truthy_and_in_false in Hin. rewrite Hin. reflexivity.
Qed.

Section Elevation.

Context (B : Base) (resolve_type : string -> result field_type).
Context (operator : ast.cmpop) (left right : ast.expr) (c : Context).
Context (P : string) (type : field_type) (cond : Fragment).

Hypothesis left_resolves : FieldName.handle left = Ok P.
Hypothesis type_resolves : resolve_type P = Ok type.
Hypothesis inner_condition :
  handle_operator_with_right_and_left B type operator right
    (Kw (mkContext (Some P) (array_fields c) (complex_fields c))) = Ok cond.

(** C1: a comparison whose left side resolves to the field path [P] and whose
    inner condition translates to [cond] compiles to the existential
    template around [cond] when [P] is in both [array_fields] and
    [complex_fields], and to [cond] itself otherwise. *)
Theorem elevation_iff_array_and_complex :
  (in_fields (array_fields c) P /\ in_fields (complex_fields c) P ->
   ProjectionMap.handle B resolve_type operator left right c =
     Ok (obj [("$and", FList [
       obj [("$isArray", FStr ("$" +:+ P))];
       obj [("$anyElementTrue", obj [("$map", obj [
         ("input", obj [("$cond", obj [
            ("if", obj [("$isArray", FStr ("$" +:+ P))]);
            ("then", FStr ("$" +:+ P));
            ("else", FList [])])]);
         ("as", FStr (last_segment P));
         ("in", obj [("$cond", obj [
            ("if", cond);
            ("then", FBool true);
            ("else", FBool false)])])])])]])]))
  /\
  (~ (in_fields (array_fields c) P /\ in_fields (complex_fields c) P) ->
   ProjectionMap.handle B resolve_type operator left right c = Ok cond).
Proof.
  pose proof (ProjectionMap_handle_outcome B resolve_type operator left right c P type cond
                left_resolves type_resolves inner_condition) as Hout.
  pose proof (elevation_guard c P) as Hguard.
  destruct (truthy_and_in (complex_fields c) (Some P)
            && truthy_and_in (array_fields c) (Some P)) eqn:Hg.
  - split.
    + intros _. rewrite Hout. reflexivity.
    + intros Hnot. exfalso. apply Hnot, Hguard. reflexivity.
  - split.
    + intros Hboth. apply Hguard in Hboth. discriminate.
    + intros _. exact Hout.
Qed.

End Elevation.

(** A closed instance of C1: [tags == "x"] with [tags] an array of
    documents. *)
Lemma elevation_iff_array_and_complex_witness :
  (in_fields (array_fields tags_array_of_documents) "tags"
   /\ in_fields (complex_fields tags_array_of_documents) "tags") /\
  ProjectionMap.handle spec_base ProjectionSchemaFreeOperatorMap.resolve_type
    ast.Eq (ast.Name "tags" 0) (ast.Str "x" 8) tags_array_of_documents =
    Ok (ProjectionMap.any_element_true "tags" (obj [("$eq", FList [FStr "$$tags"; FStr "x"])])).
Proof.
  assert (Hboth : in_fields (array_fields tags_array_of_documents) "tags"
                  /\ in_fields (complex_fields tags_array_of_documents) "tags").
  { split; exists {["tags"]}; (split; [reflexivity | apply elem_of_singleton; reflexivity]). }
  split; [exact Hboth|].
  apply (proj1 (elevation_iff_array_and_complex spec_base
                  ProjectionSchemaFreeOperatorMap.resolve_type ast.Eq
                  (ast.Name "tags" 0) (ast.Str "x" 8) tags_array_of_documents
                  "tags" ProjectionGenericField
                  (obj [("$eq", FList [FStr "$$tags"; FStr "x"])])
                  eq_refl eq_refl eq_refl)).
  exact Hboth.
Defined.

(** The instance of the elevation that the spec tests: under a field that
    is an array of documents a number is compared with the alias inside the
    template. *)
Lemma elevated_number_comparison B left P n ncol ccol c :
  FieldName.handle left = Ok P ->
  in_fields (array_fields c) P ->
  in_fields (complex_fields c) P ->
  ProjectionSchemaFreeParser.handle B (ast.Compare left [ast.Eq] [ast.Num n ncol] ccol) c
  = Ok (ProjectionMap.any_element_true P
          (obj [("$eq", FList [FStr ("$$" +:+ last_segment P); FNum n])])).
Proof.
  intros Hleft Harr Hcplx.
  unfold ProjectionSchemaFreeParser.handle, ProjectionSchemaFreeOperatorMap.handle.
  cbn [ProjectionParser.handle ProjectionParser.handle_Compare].
  erewrite ProjectionMap_handle_outcome; [ | exact Hleft | reflexivity | reflexivity ].
  rewrite (proj2 (elevation_guard c P) (conj Harr Hcplx)).
  cbn [defaults]. rewrite (field_reference_array _ _ (complex_fields c) Harr). reflexivity.
Qed.

(** The inner condition of a comparison with [regexMatch(pattern)] and with
    [regexMatch(pattern, options)], whatever the reference form. *)
Lemma regexMatch_condition B c pat pcol idcol col :
  ProjectionField.handle B (ast.Call (ast.Name "regexMatch" idcol) [ast.Str pat pcol] col)
    ProjectionGenericField (Kw c)
  = Ok (ProjectionStringFunc.regexMatch_result (field_reference c)
          [("input", FStr (field_reference c)); ("regex", FStr pat)]).
Proof. reflexivity. Qed.

Lemma regexMatch_condition_options B c pat pcol opts ocol idcol col :
  ProjectionField.handle B
    (ast.Call (ast.Name "regexMatch" idcol) [ast.Str pat pcol; ast.Str opts ocol] col)
    ProjectionGenericField (Kw c)
  = Ok (ProjectionStringFunc.regexMatch_result (field_reference c)
          [("input", FStr (field_reference c)); ("regex", FStr pat); ("options", FStr opts)]).
Proof. reflexivity. Qed.

(** C7: on a compared field [P] that is not in [array_fields],
    [P == regexMatch(pat)] compiles to the conjunction of the string type
    guard and [$regexMatch] on ["$P"] with no [options] key, and a second
    string argument adds the key [options] with that value. *)
Theorem regexMatch_on_non_array_field B left P pat pcol opts ocol idcol col ccol c :
  FieldName.handle left = Ok P ->
  ~ in_fields (array_fields c) P ->
  ProjectionSchemaFreeParser.handle B
    (ast.Compare left [ast.Eq]
       [ast.Call (ast.Name "regexMatch" idcol) [ast.Str pat pcol] col] ccol) c
  = Ok (obj [("$and", FList [
          obj [("$eq", FList [FStr "string"; obj [("$type", FStr ("$" +:+ P))]])];
          obj [("$regexMatch", obj [("input", FStr ("$" +:+ P)); ("regex", FStr pat)])]])])
  /\
  ProjectionSchemaFreeParser.handle B
    (ast.Compare left [ast.Eq]
       [ast.Call (ast.Name "regexMatch" idcol) [ast.Str pat pcol; ast.Str opts ocol] col]
       ccol) c
  = Ok (obj [("$and", FList [
          obj [("$eq", FList [FStr "string"; obj [("$type", FStr ("$" +:+ P))]])];
          obj [("$regexMatch", obj [("input", FStr ("$" +:+ P)); ("regex", FStr pat);
                                    ("options", FStr opts)])]])]).
Proof.
  intros Hleft Harr.
  assert (Hguard : truthy_and_in (complex_fields c) (Some P)
                   && truthy_and_in (array_fields c) (Some P) = false).
  { apply andb_false_iff. right. apply truthy_and_in_false, Harr. }
  unfold ProjectionSchemaFreeParser.handle, ProjectionSchemaFreeOperatorMap.handle.
  split.
  - cbn [ProjectionParser.handle ProjectionParser.handle_Compare].
    erewrite ProjectionMap_handle_outcome;
      [ | exact Hleft | reflexivity
        | unfold handle_operator_with_right_and_left, ProjectionOperator.handle_Eq;
          apply regexMatch_condition ].
    rewrite Hguard. cbn [defaults]. rewrite (field_reference_root _ _ _ Harr). reflexivity.
  - cbn [ProjectionParser.handle ProjectionParser.handle_Compare].
    erewrite ProjectionMap_handle_outcome;
      [ | exact Hleft | reflexivity
        | unfold handle_operator_with_right_and_left, ProjectionOperator.handle_Eq;
          apply regexMatch_condition_options ].
    rewrite Hguard. cbn [defaults]. rewrite (field_reference_root _ _ _ Harr). reflexivity.
Qed.

(** A closed instance of C7: [name == regexMatch("^a")] and
    [name == regexMatch("^a", "i")] with no array field. *)
Lemma regexMatch_on_non_array_field_witness :
  ~ in_fields (array_fields tags_array) "name" /\
  ProjectionSchemaFreeParser.handle spec_base
    (ast.Compare (ast.Name "name" 0) [ast.Eq]
       [ast.Call (ast.Name "regexMatch" 8) [ast.Str "^a" 19] 8] 0) tags_array
  = Ok (obj [("$and", FList [
          obj [("$eq", FList [FStr "string"; obj [("$type", FStr "$name")]])];
          obj [("$regexMatch", obj [("input", FStr "$name"); ("regex", FStr "^a")])]])])
  /\
  ProjectionSchemaFreeParser.handle spec_base
    (ast.Compare (ast.Name "name" 0) [ast.Eq]
       [ast.Call (ast.Name "regexMatch" 8) [ast.Str "^a" 19; ast.Str "i" 25] 8] 0) tags_array
  = Ok (obj [("$and", FList [
          obj [("$eq", FList [FStr "string"; obj [("$type", FStr "$name")]])];
          obj [("$regexMatch", obj [("input", FStr "$name"); ("regex", FStr "^a");
                                    ("options", FStr "i")])]])]).
Proof.
  assert (Hname : ~ in_fields (array_fields tags_array) "name").
  { apply truthy_and_in_false. vm_compute. reflexivity. }
  split; [exact Hname|].
  exact (regexMatch_on_non_array_field spec_base (ast.Name "name" 0) "name"
           "^a" 19 "i" 25 8 8 0 tags_array eq_refl Hname).
Defined.

(** The inner conditions of a comparison with a number and with a string
    literal: the reference follows [field_reference]. *)
Lemma number_condition B c n ncol :
  handle_operator_with_right_and_left B ProjectionGenericField ast.Eq (ast.Num n ncol) (Kw c)
  = Ok (obj [("$eq", FList [FStr (field_reference c); FNum n])]).
Proof. reflexivity. Qed.

Lemma string_condition B P arr cplx s scol :
  P <> "" ->
  handle_operator_with_right_and_left B ProjectionGenericField ast.Eq (ast.Str s scol)
    (Kw (mkContext (Some P) arr cplx))
  = Ok (obj [("$eq", FList [FStr (field_reference (mkContext (Some P) arr cplx)); FStr s])]).
Proof.
  intros HP. unfold handle_operator_with_right_and_left, ProjectionOperator.handle_Eq.
  cbn -[field_reference]. destruct P; [contradiction|reflexivity].
Qed.

(** C10: comparing the field [P] with a name that is one of the special
    values yields [{"$eq": ["$P", v]}] with the root reference, whatever
    [array_fields] is; a number or (for a non-empty [P]) a string literal
    under an array field is compared with ["$$" + last_segment(P)]
    instead. *)
Theorem name_literal_root_reference B self id col v P arr cplx :
  SPECIAL_VALUES B self !! id = Some v ->
  handle_operator_with_right_and_left B self ast.Eq (ast.Name id col)
    (Kw (mkContext (Some P) arr cplx))
  = Ok (obj [("$eq", FList [FStr ("$" +:+ P); v])])
  /\
  (in_fields arr P ->
   (forall n ncol,
      handle_operator_with_right_and_left B ProjectionGenericField ast.Eq (ast.Num n ncol)
        (Kw (mkContext (Some P) arr cplx))
      = Ok (obj [("$eq", FList [FStr ("$$" +:+ last_segment P); FNum n])]))
   /\
   (P <> "" -> forall s scol,
      handle_operator_with_right_and_left B ProjectionGenericField ast.Eq (ast.Str s scol)
        (Kw (mkContext (Some P) arr cplx))
      = Ok (obj [("$eq", FList [FStr ("$$" +:+ last_segment P); FStr s])]))).
Proof.
  intros Hv. split.
  - unfold handle_operator_with_right_and_left, ProjectionOperator.handle_Eq.
    destruct self; cbn [ProjectionField.handle]; unfold ProjectionField.handle_Name;
      rewrite Hv; reflexivity.
  - intros Hin. split.
    + intros n ncol. rewrite number_condition, (field_reference_array _ _ _ Hin). reflexivity.
    + intros HP s scol.
      rewrite (string_condition _ _ _ _ _ _ HP), (field_reference_array _ _ _ Hin).
      reflexivity.
Qed.

(** A closed instance of C10: [tags == None], [tags == 1] and [tags == "x"]
    with [tags] an array. *)
Lemma name_literal_root_reference_witness :
  spec_special_values ProjectionGenericField !! "None" = Some FNone /\
  in_fields (Some {["tags"]}) "tags" /\
  handle_operator_with_right_and_left spec_base ProjectionGenericField ast.Eq
    (ast.Name "None" 8) (Kw (mkContext (Some "tags") (Some {["tags"]}) None))
  = Ok (obj [("$eq", FList [FStr "$tags"; FNone])]) /\
  handle_operator_with_right_and_left spec_base ProjectionGenericField ast.Eq
    (ast.Num 1 8) (Kw (mkContext (Some "tags") (Some {["tags"]}) None))
  = Ok (obj [("$eq", FList [FStr "$$tags"; FNum 1])]) /\
  handle_operator_with_right_and_left spec_base ProjectionGenericField ast.Eq
    (ast.Str "x" 8) (Kw (mkContext (Some "tags") (Some {["tags"]}) None))
  = Ok (obj [("$eq", FList [FStr "$$tags"; FStr "x"])]).
Proof.
  assert (Hv : SPECIAL_VALUES spec_base ProjectionGenericField !! "None" = Some FNone).
  { vm_compute. reflexivity. }
  assert (Hin : in_fields (Some {["tags"]}) "tags").
  { exists {["tags"]}. split; [reflexivity | apply elem_of_singleton; reflexivity]. }
  destruct (name_literal_root_reference spec_base ProjectionGenericField "None" 8 FNone
              "tags" (Some {["tags"]}) None Hv) as [Hname Hlit].
  destruct (Hlit Hin) as [Hnum Hstr].
  split; [exact Hv|]. split; [exact Hin|]. split; [exact Hname|].
  split; [exact (Hnum 1 8)|].
  apply Hstr. discriminate.
Defined.

(** C2 at its failing site: when the field [P] is in both [array_fields] and
    [complex_fields], comparing it with a name among the special values
    (such as [null]) puts the root reference ["$P"] inside the body of the
    [$map] over [P], where the string, number and [regexMatch] sites put the
    alias ["$$" + last_segment(P)]. *)
Theorem name_literal_under_array_field B left P id col ccol c value :
  FieldName.handle left = Ok P ->
  SPECIAL_VALUES B ProjectionGenericField !! id = Some value ->
  in_fields (array_fields c) P ->
  in_fields (complex_fields c) P ->
  ProjectionSchemaFreeParser.handle B (ast.Compare left [ast.Eq] [ast.Name id col] ccol) c
  = Ok (ProjectionMap.any_element_true P (obj [("$eq", FList [FStr ("$" +:+ P); value])])).
Proof.
  intros Hleft Hid Harr Hcplx.
  unfold ProjectionSchemaFreeParser.handle, ProjectionSchemaFreeOperatorMap.handle.
  cbn [ProjectionParser.handle ProjectionParser.handle_Compare].
  erewrite ProjectionMap_handle_outcome;
    [ | exact Hleft | reflexivity
      | unfold handle_operator_with_right_and_left, ProjectionOperator.handle_Eq;
        cbn [ProjectionField.handle]; unfold ProjectionField.handle_Name;
        rewrite Hid; reflexivity ].
  rewrite (proj2 (elevation_guard c P) (conj Harr Hcplx)). reflexivity.
Qed.

(** A closed instance of C2: [tags == null] with [tags] an array of
    documents, beside [tags == 1]. *)
Lemma name_literal_under_array_field_witness :
  FieldName.handle (ast.Name "tags" 0) = Ok "tags"
  /\ SPECIAL_VALUES spec_base ProjectionGenericField !! "null" = Some FNone
  /\ in_fields (array_fields tags_array_of_documents) "tags"
  /\ in_fields (complex_fields tags_array_of_documents) "tags"
  /\ ProjectionSchemaFreeParser.handle spec_base
       (ast.Compare (ast.Name "tags" 0) [ast.Eq] [ast.Name "null" 8] 0)
       tags_array_of_documents
     = Ok (ProjectionMap.any_element_true "tags"
             (obj [("$eq", FList [FStr "$tags"; FNone])]))
  /\ ProjectionSchemaFreeParser.handle spec_base
       (ast.Compare (ast.Name "tags" 0) [ast.Eq] [ast.Num 1 8] 0)
       tags_array_of_documents
     = Ok (ProjectionMap.any_element_true "tags"
             (obj [("$eq", FList [FStr "$$tags"; FNum 1])])).
Proof.
  assert (Hnull : SPECIAL_VALUES spec_base ProjectionGenericField !! "null" = Some FNone).
  { vm_compute. reflexivity. }
  assert (Hin : in_fields (Some {["tags"]}) "tags").
  { exists {["tags"]}. split; [reflexivity | apply elem_of_singleton; reflexivity]. }
  split; [reflexivity|]. split; [exact Hnull|]. split; [exact Hin|]. split; [exact Hin|].
  split; [|vm_compute; reflexivity].
  exact (name_literal_under_array_field spec_base (ast.Name "tags" 0) "tags" "null" 8 0
           tags_array_of_documents FNone eq_refl Hnull Hin Hin).
Defined.

(** C9: in schema-aware mode a field path that is not declared fails with
    the "Field not found" error, which carries the path, the column of the
    node and exactly the declared paths as options; a declared path resolves
    to itself and to its declared type. *)
Theorem schema_aware_resolution (_field_to_type : gmap string field_type) node field :
  FieldName.handle node = Ok field ->
  (_field_to_type !! field = None ->
   exists suggestions,
     SchemaAwareOperatorMap.resolve_field _field_to_type node
     = Raise (EParse (mkParseError ("Field not found: " +:+ field +:+ ".")
                                   (Some (ast.col_offset node)) (Some suggestions)))
     /\ list_to_set suggestions = dom _field_to_type /\ NoDup suggestions)
  /\
  (forall type, _field_to_type !! field = Some type ->
     SchemaAwareOperatorMap.resolve_field _field_to_type node = Ok field
     /\ SchemaAwareOperatorMap.resolve_type _field_to_type field = Ok type).
Proof.
  intros Hnode. unfold SchemaAwareOperatorMap.resolve_field,
    SchemaAwareOperatorMap.resolve_type. rewrite Hnode. cbn [bind]. split.
  - intros Hnone. rewrite Hnone. exists (map_to_list _field_to_type).*1.
    split; [reflexivity|]. split.
    + symmetry. apply leibniz_equiv, dom_alt.
    + apply NoDup_fst_map_to_list.
  - intros type Hsome. rewrite Hsome. split; reflexivity.
Qed.

(** A closed instance of C9: [user.email] is not declared, [name] is. *)
Lemma schema_aware_resolution_witness :
  (FieldName.handle (ast.Attribute (ast.Name "user" 0) "email" 0) = Ok "user.email" /\
   example_schema !! "user.email" = None /\
   exists suggestions,
     SchemaAwareOperatorMap.resolve_field example_schema
       (ast.Attribute (ast.Name "user" 0) "email" 0)
     = Raise (EParse (mkParseError "Field not found: user.email." (Some 0) (Some suggestions)))
     /\ list_to_set suggestions = dom example_schema /\ NoDup suggestions)
  /\
  (FieldName.handle (ast.Name "name" 3) = Ok "name" /\
   example_schema !! "name" = Some ProjectionStringField /\
   SchemaAwareOperatorMap.resolve_field example_schema (ast.Name "name" 3) = Ok "name" /\
   SchemaAwareOperatorMap.resolve_type example_schema "name" = Ok ProjectionStringField).
Proof.
  assert (Hnone : example_schema !! "user.email" = None) by (vm_compute; reflexivity).
  assert (Hsome : example_schema !! "name" = Some ProjectionStringField)
    by (vm_compute; reflexivity).
  split.
  - split; [reflexivity|]. split; [exact Hnone|].
    exact (proj1 (schema_aware_resolution example_schema
                    (ast.Attribute (ast.Name "user" 0) "email" 0) "user.email" eq_refl)
                 Hnone).
  - split; [reflexivity|]. split; [exact Hsome|].
    exact (proj2 (schema_aware_resolution example_schema (ast.Name "name" 3) "name" eq_refl)
                 ProjectionStringField Hsome).
Defined.

(** ** Compare and its fallback *)

(** C3, as the code has it: [handle_Compare] returns a successful
    translation of the operator map as it is; when the operator map raises,
    it answers with the field-to-field comparison exactly if the exception
    is a [ParseError] whose message starts with "Unsupported syntax"; any
    other exception propagates unchanged. *)
Theorem fallback_on_message_prefix B _operator_map left operator ops right col c :
  (forall fragment,
     _operator_map operator left right c = Ok fragment ->
     ProjectionParser.handle B _operator_map
       (ast.Compare left (operator :: ops) [right] col) c
     = Ok fragment)
  /\
  (forall e,
     _operator_map operator left right c = Raise e ->
     unsupported_syntax_message e ->
     ProjectionParser.handle B _operator_map
       (ast.Compare left (operator :: ops) [right] col) c
     = handle_field_comparison B (ast.Compare left (operator :: ops) [right] col))
  /\
  (forall e,
     _operator_map operator left right c = Raise e ->
     ~ unsupported_syntax_message e ->
     ProjectionParser.handle B _operator_map
       (ast.Compare left (operator :: ops) [right] col) c
     = Raise e).
Proof.
  cbn [ProjectionParser.handle ProjectionParser.handle_Compare]. split; [|split].
  - intros fragment Hok. rewrite Hok. reflexivity.
  - intros e He (err & -> & Hprefix). rewrite He, Hprefix. reflexivity.
  - intros e He Hnot. rewrite He. destruct e as [err| | | |]; try reflexivity.
    destruct (String.prefix "Unsupported syntax" (message err)) eqn:Hprefix; [|reflexivity].
    exfalso. apply Hnot. exists err. split; [reflexivity|exact Hprefix].
Qed.

(** A closed instance of the amended C3: [a == 1] is returned as translated,
    [a == b.c], whose right side has no handler on a field, takes the
    fallback, and [a == b] propagates its "Invalid name". *)
Lemma fallback_on_message_prefix_witness :
  (ProjectionSchemaFreeOperatorMap.handle spec_base ast.Eq (ast.Name "a" 0) (ast.Num 1 5)
     no_context
   = Ok (obj [("$eq", FList [FStr "$a"; FNum 1])]) /\
   ProjectionSchemaFreeParser.handle spec_base
     (ast.Compare (ast.Name "a" 0) [ast.Eq] [ast.Num 1 5] 0) no_context
   = Ok (obj [("$eq", FList [FStr "$a"; FNum 1])]))
  /\
  (ProjectionSchemaFreeOperatorMap.handle spec_base ast.Eq (ast.Name "a" 0)
     (ast.Attribute (ast.Name "b" 5) "c" 5) no_context
   = Raise (unsupported_syntax "Attribute" (Some 5)) /\
   unsupported_syntax_message (unsupported_syntax "Attribute" (Some 5)) /\
   ProjectionSchemaFreeParser.handle spec_base
     (ast.Compare (ast.Name "a" 0) [ast.Eq] [ast.Attribute (ast.Name "b" 5) "c" 5] 0)
     no_context
   = Ok field_comparison_marker)
  /\
  (ProjectionSchemaFreeOperatorMap.handle spec_base ast.Eq (ast.Name "a" 0) (ast.Name "b" 5)
     no_context
   = Raise (EParse (mkParseError "Invalid name: b" (Some 5)
                      (Some (map_to_list (spec_special_values ProjectionGenericField)).*1)))
   /\
   ~ unsupported_syntax_message
       (EParse (mkParseError "Invalid name: b" (Some 5)
                  (Some (map_to_list (spec_special_values ProjectionGenericField)).*1)))
   /\
   ProjectionSchemaFreeParser.handle spec_base
     (ast.Compare (ast.Name "a" 0) [ast.Eq] [ast.Name "b" 5] 0) no_context
   = Raise (EParse (mkParseError "Invalid name: b" (Some 5)
                      (Some (map_to_list (spec_special_values ProjectionGenericField)).*1)))).
Proof.
  assert (Hmsg : unsupported_syntax_message (unsupported_syntax "Attribute" (Some 5))).
  { eexists. split; reflexivity. }
  assert (Hinvalid :
    ~ unsupported_syntax_message
        (EParse (mkParseError "Invalid name: b" (Some 5)
                   (Some (map_to_list (spec_special_values ProjectionGenericField)).*1)))).
  { intros (err & [= <-] & Hprefix). discriminate Hprefix. }
  split; [|split].
  - split; [reflexivity|].
    exact (proj1 (fallback_on_message_prefix spec_base
                    (ProjectionSchemaFreeOperatorMap.handle spec_base)
                    (ast.Name "a" 0) ast.Eq [] (ast.Num 1 5) 0 no_context)
                 _ eq_refl).
  - split; [reflexivity|]. split; [exact Hmsg|].
    exact (proj1 (proj2 (fallback_on_message_prefix spec_base
                           (ProjectionSchemaFreeOperatorMap.handle spec_base)
                           (ast.Name "a" 0) ast.Eq []
                           (ast.Attribute (ast.Name "b" 5) "c" 5) 0 no_context))
                 (unsupported_syntax "Attribute" (Some 5)) eq_refl Hmsg).
  - split; [vm_compute; reflexivity|]. split; [exact Hinvalid|].
    refine (proj2 (proj2 (fallback_on_message_prefix spec_base
                           (ProjectionSchemaFreeOperatorMap.handle spec_base)
                           (ast.Name "a" 0) ast.Eq [] (ast.Name "b" 5) 0 no_context))
                 _ _ Hinvalid).
    vm_compute. reflexivity.
Defined.

(** C3 fails as stated.  [a == b] has a field reference on its right, yet
    the failure ("Invalid name") propagates and no fallback is taken; and of
    two failures of the operator map that differ in nothing but the text of
    the message, one takes the fallback and the other propagates. *)
Lemma fallback_decided_by_message_text :
  ProjectionSchemaFreeParser.handle spec_base
    (equals (ast.Name "a" 0) (ast.Name "b" 5)) no_context
  = Raise (EParse (mkParseError "Invalid name: b" (Some 5)
                     (Some (map_to_list (spec_special_values ProjectionGenericField)).*1)))
  /\
  ProjectionParser.handle spec_base (failing_operator_map "Unsupported syntax (Name).")
    (equals (ast.Name "a" 0) (ast.Name "b" 5)) no_context
  = Ok field_comparison_marker
  /\
  ProjectionParser.handle spec_base (failing_operator_map "Unsupported function (Name).")
    (equals (ast.Name "a" 0) (ast.Name "b" 5)) no_context
  = Raise (EParse (mkParseError "Unsupported function (Name)." (Some 5) None)).
Proof. repeat split; vm_compute; reflexivity. Qed.

(** A failure raised inside the arguments of a call is taken for a field
    comparison as well: in [a == regexMatch(5)] the string field has no
    handler for the number. *)
Example fallback_swallows_argument_error :
  ProjectionSchemaFreeParser.handle spec_base
    (equals (ast.Name "a" 0) (ast.Call (ast.Name "regexMatch" 5) [ast.Num 5 16] 5))
    no_context
  = Ok field_comparison_marker.
Proof. vm_compute. reflexivity. Qed.

(** ** NOT *)

(** C4, as the code has it: [not operand] wraps the first item of the
    operand's translation, [{"$not": {field: value}}], whatever follows it;
    a conjunction or disjunction under [not] is translated like any other
    operand, not refused. *)
Theorem not_wraps_first_item B _operator_map c :
  (forall operand col field value others,
     ProjectionParser.handle B _operator_map operand c
     = Ok (FDict ((field, value) :: others)) ->
     ProjectionParser.handle B _operator_map (ast.UnaryOp ast.Not operand col) c
     = Ok (obj [("$not", FDict [(field, value)])]))
  /\
  (forall op values operands bcol col,
     mapM (fun value => ProjectionParser.handle B _operator_map value c) values
     = Ok operands ->
     ProjectionParser.handle B _operator_map
       (ast.UnaryOp ast.Not (ast.BoolOp op values bcol) col) c
     = Ok (obj [("$not", obj [(ProjectionParser.handle_boolop op, FList operands)])])).
Proof.
  split.
  - intros operand col field value others Hoperand.
    cbn [ProjectionParser.handle]. rewrite Hoperand. reflexivity.
  - intros op values operands bcol col Hvalues.
    cbn [ProjectionParser.handle]. rewrite Hvalues. reflexivity.
Qed.

(** A closed instance of the amended C4: [not (F == 1)] and
    [not (a == 1 and b == 2)]. *)
Lemma not_wraps_first_item_witness :
  (ProjectionSchemaFreeParser.handle spec_base (equals (ast.Name "F" 4) (ast.Num 1 9))
     no_context
   = Ok (FDict [(FStr "$eq", FList [FStr "$F"; FNum 1])]) /\
   ProjectionSchemaFreeParser.handle spec_base
     (ast.UnaryOp ast.Not (equals (ast.Name "F" 4) (ast.Num 1 9)) 0) no_context
   = Ok (obj [("$not", obj [("$eq", FList [FStr "$F"; FNum 1])])]))
  /\
  (mapM (fun value => ProjectionSchemaFreeParser.handle spec_base value no_context)
     [equals (ast.Name "a" 5) (ast.Num 1 10); equals (ast.Name "b" 16) (ast.Num 2 21)]
   = Ok [obj [("$eq", FList [FStr "$a"; FNum 1])]; obj [("$eq", FList [FStr "$b"; FNum 2])]] /\
   ProjectionSchemaFreeParser.handle spec_base
     (ast.UnaryOp ast.Not
        (ast.BoolOp ast.And
           [equals (ast.Name "a" 5) (ast.Num 1 10); equals (ast.Name "b" 16) (ast.Num 2 21)]
           5) 0) no_context
   = Ok (obj [("$not", obj [("$and", FList [
            obj [("$eq", FList [FStr "$a"; FNum 1])];
            obj [("$eq", FList [FStr "$b"; FNum 2])]])])])).
Proof.
  split.
  - split; [reflexivity|].
    exact (proj1 (not_wraps_first_item spec_base
                    (ProjectionSchemaFreeOperatorMap.handle spec_base) no_context)
                 (equals (ast.Name "F" 4) (ast.Num 1 9)) 0
                 (FStr "$eq") (FList [FStr "$F"; FNum 1]) [] eq_refl).
  - split; [reflexivity|].
    exact (proj2 (not_wraps_first_item spec_base
                    (ProjectionSchemaFreeOperatorMap.handle spec_base) no_context)
                 ast.And
                 [equals (ast.Name "a" 5) (ast.Num 1 10);
                  equals (ast.Name "b" 16) (ast.Num 2 21)]
                 [obj [("$eq", FList [FStr "$a"; FNum 1])];
                  obj [("$eq", FList [FStr "$b"; FNum 2])]]
                 5 0 eq_refl).
Defined.

(** C4 fails as stated: [not (a == 1 and b == 2)] is translated; no error is
    raised. *)
Lemma not_over_conjunction_is_translated :
  ProjectionSchemaFreeParser.handle spec_base
    (ast.UnaryOp ast.Not
       (ast.BoolOp ast.And
          [equals (ast.Name "a" 5) (ast.Num 1 10); equals (ast.Name "b" 16) (ast.Num 2 21)]
          5) 0) no_context
  = Ok (obj [("$not", obj [("$and", FList [
           obj [("$eq", FList [FStr "$a"; FNum 1])];
           obj [("$eq", FList [FStr "$b"; FNum 2])]])])])
  /\
  is_parse_error
    (ProjectionSchemaFreeParser.handle spec_base
       (ast.UnaryOp ast.Not
          (ast.BoolOp ast.And
             [equals (ast.Name "a" 5) (ast.Num 1 10); equals (ast.Name "b" 16) (ast.Num 2 21)]
             5) 0) no_context)
  = false.
Proof. split; vm_compute; reflexivity. Qed.

(** ** search *)

(** C5 at its failing inputs: [search] with a string literal as its first
    argument yields the [$text] fragment of the claim, but the malformed
    calls that the claim requires to fail with a [ParseError] do not:
    [search()] raises [IndexError] and [search(5)] raises [AttributeError],
    both from [op.args[0].s], which is read with no check. *)
Theorem search_translation B _operator_map idcol col c :
  (forall s scol others,
     ProjectionParser.handle B _operator_map
       (ast.Call (ast.Name "search" idcol) (ast.Str s scol :: others) col) c
     = Ok (obj [("$text", obj [("$search", FStr (dquote +:+ s +:+ dquote));
                               ("$caseSensitive", FBool false)])]))
  /\
  ProjectionParser.handle B _operator_map (ast.Call (ast.Name "search" idcol) [] col) c
  = Raise EIndexError
  /\
  (forall n ncol others,
     ProjectionParser.handle B _operator_map
       (ast.Call (ast.Name "search" idcol) (ast.Num n ncol :: others) col) c
     = Raise EAttributeError).
Proof.
  split; [|split].
  - intros s scol others. reflexivity.
  - reflexivity.
  - intros n ncol others. reflexivity.
Qed.

(** The same on closed calls; [search("needle", "more")] does not fail at
    all. *)
Example search_malformed_call_is_no_parse_error :
  ProjectionSchemaFreeParser.handle spec_base (ast.Call (ast.Name "search" 0) [] 0) no_context
  = Raise EIndexError
  /\
  ProjectionSchemaFreeParser.handle spec_base
    (ast.Call (ast.Name "search" 0) [ast.Num 5 7] 0) no_context
  = Raise EAttributeError
  /\
  ProjectionSchemaFreeParser.handle spec_base
    (ast.Call (ast.Name "search" 0) [ast.Str "needle" 7; ast.Str "more" 17] 0) no_context
  = Ok (obj [("$text", obj [("$search", FStr (dquote +:+ "needle" +:+ dquote));
                            ("$caseSensitive", FBool false)])]).
Proof. repeat split. Qed.

(** ** exists *)

(** C6 at its failing inputs: [left == exists(...)], for a left side that
    resolves to a field path, yields no fragment at all.  [exists] is always
    called with the three keywords, which [handle_exists(self, node)] does
    not declare, so the comparison raises [TypeError] whatever the
    arguments of the call and the field sets. *)
Theorem exists_through_comparison B left P idcol args col ccol c :
  FieldName.handle left = Ok P ->
  ProjectionSchemaFreeParser.handle B
    (ast.Compare left [ast.Eq] [ast.Call (ast.Name "exists" idcol) args col] ccol) c
  = Raise ETypeError.
Proof.
  intros Hleft. unfold ProjectionSchemaFreeParser.handle.
  cbn [ProjectionParser.handle ProjectionParser.handle_Compare].
  unfold ProjectionSchemaFreeOperatorMap.handle, ProjectionMap.handle,
    ProjectionMap.resolve_field. rewrite Hleft. reflexivity.
Qed.

(** What [handle_exists] itself does: reached with no keyword, it
    translates the first argument of the call with the Bool field handler,
    with no keyword either, and returns the one-key fragment
    [{"$exists": <translation>}]; no key for the compared field is added. *)
Lemma exists_wraps_bool_translation B idcol args col arg translated :
  args !! 0%nat = Some arg ->
  ProjectionField.handle B arg ProjectionBoolField NoKw = Ok translated ->
  ProjectionField.handle B (ast.Call (ast.Name "exists" idcol) args col)
    ProjectionGenericField NoKw
  = Ok (obj [("$exists", translated)]).
Proof.
  intros Harg Htranslated. destruct args as [|first others]; [discriminate|].
  injection Harg as ->. cbn. rewrite Htranslated. reflexivity.
Qed.

(** A closed instance: [exists(True)]. *)
Lemma exists_wraps_bool_translation_witness :
  [ast.NameConstant (Some true) 7] !! 0%nat = Some (ast.NameConstant (Some true) 7) /\
  ProjectionField.handle spec_base (ast.NameConstant (Some true) 7) ProjectionBoolField NoKw
  = Ok (FBool true) /\
  ProjectionField.handle spec_base
    (ast.Call (ast.Name "exists" 0) [ast.NameConstant (Some true) 7] 0)
    ProjectionGenericField NoKw
  = Ok (obj [("$exists", FBool true)]).
Proof.
  split; [reflexivity|]. split; [reflexivity|].
  exact (exists_wraps_bool_translation spec_base 0 [ast.NameConstant (Some true) 7] 0
           (ast.NameConstant (Some true) 7) (FBool true) eq_refl eq_refl).
Defined.

(** On [F == exists(True)]: no fragment, and in particular not
    [{"F": {"$exists": true}}]. *)
Example exists_comparison_yields_no_fragment :
  ProjectionSchemaFreeParser.handle spec_base
    (equals (ast.Name "F" 0) (ast.Call (ast.Name "exists" 5) [ast.NameConstant (Some true) 12] 5))
    no_context
  = Raise ETypeError
  /\
  ProjectionSchemaFreeParser.handle spec_base
    (equals (ast.Name "F" 0) (ast.Call (ast.Name "exists" 5) [ast.NameConstant (Some true) 12] 5))
    no_context
  <> Ok (obj [("F", obj [("$exists", FBool true)])]).
Proof. split; [reflexivity | vm_compute; discriminate]. Qed.

(** ** Dict literals *)

(** The items [handle_Dict] builds from string keys and translated values. *)
Lemma handle_Dict_items (ks : list (string * Z)) (values : list ast.expr)
    (h : ast.expr -> result Fragment) (translated : list Fragment) :
  Forall2 (fun value v => h value = Ok v) values translated ->
  ProjectionField.handle_Dict (map (fun k => Ok (FStr k.1)) ks) (map h values)
  = Ok (obj [("$and", FList (zip_with (fun k v => obj [(k.1, v)]) ks translated))]).
Proof.
  intros Hvalues. unfold ProjectionField.handle_Dict.
  assert (Hitems :
    mapM (fun kv : result Fragment * result Fragment =>
            let* key := kv.1 in
            let* value := kv.2 in
            if hashable key then Ok (FDict [(key, value)]) else Raise ETypeError)
         (zip (map (fun k : string * Z => Ok (FStr k.1)) ks) (map h values))
    = Ok (zip_with (fun k v => obj [(k.1, v)]) ks translated)).
  { revert ks. induction Hvalues as [|value v values translated Hv _ IH]; intros ks.
    - destruct ks; reflexivity.
    - destruct ks as [|k ks]; [reflexivity|].
      cbn. rewrite Hv. cbn. cbn in IH. rewrite IH. reflexivity. }
  cbn in Hitems |- *. rewrite Hitems. reflexivity.
Qed.

(** C8, as the code has it: a dict literal with string keys translates to
    [{"$and": [{key: value}, ...]}], one fragment per key-value pair; each
    value is translated by the declared field type, or by the generic one,
    with no keyword, so the compared field path is neither extended nor
    passed on, and the fragment is the same under every context. *)
Theorem dict_literal_translation B self (ks : list (string * Z)) values translated col kw :
  self = ProjectionGenericField \/ (exists _field, self = ProjectionDictField _field) ->
  Forall2 (fun value v => ProjectionField.handle B value (field_or_generic self) NoKw = Ok v)
          values translated ->
  ProjectionField.handle B (ast.Dict (map (fun k => ast.Str k.1 k.2) ks) values col) self kw
  = Ok (obj [("$and", FList (zip_with (fun k v => obj [(k.1, v)]) ks translated))]).
Proof.
  intros Hself Hvalues.
  assert (Hkeys : map (fun key => ProjectionField.handle B key ProjectionStringField NoKw)
                      (map (fun k : string * Z => ast.Str k.1 k.2) ks)
                  = map (fun k : string * Z => Ok (FStr k.1)) ks).
  { rewrite map_map. reflexivity. }
  destruct Hself as [-> | [_field ->]];
    cbn [ProjectionField.handle]; rewrite Hkeys; apply handle_Dict_items; exact Hvalues.
Qed.

(** A closed instance of the amended C8: [{"k": "x", "n": True}] under the
    compared field [F]. *)
Lemma dict_literal_translation_witness :
  Forall2 (fun value v =>
             ProjectionField.handle spec_base value
               (field_or_generic ProjectionGenericField) NoKw = Ok v)
          [ast.Str "x" 11; ast.NameConstant (Some true) 21] [FStr "x"; FBool true] /\
  ProjectionField.handle spec_base
    (ast.Dict [ast.Str "k" 6; ast.Str "n" 16]
              [ast.Str "x" 11; ast.NameConstant (Some true) 21] 5)
    ProjectionGenericField (Kw (mkContext (Some "F") None None))
  = Ok (obj [("$and", FList [obj [("k", FStr "x")]; obj [("n", FBool true)]])]).
Proof.
  assert (Hvalues :
    Forall2 (fun value v =>
               ProjectionField.handle spec_base value
                 (field_or_generic ProjectionGenericField) NoKw = Ok v)
            [ast.Str "x" 11; ast.NameConstant (Some true) 21] [FStr "x"; FBool true]).
  { repeat constructor. }
  split; [exact Hvalues|].
  exact (dict_literal_translation spec_base ProjectionGenericField
           [("k", 6); ("n", 16)] [ast.Str "x" 11; ast.NameConstant (Some true) 21]
           [FStr "x"; FBool true] 5 (Kw (mkContext (Some "F") None None))
           (or_introl eq_refl) Hvalues).
Defined.

(** C8 fails as stated: in [F == {"k": 1}] the value is not compared under
    the field path [F]; the path does not reach it. *)
Lemma dict_literal_drops_compared_field :
  ProjectionField.handle spec_base (ast.Num 1 11) ProjectionGenericField
    (Kw (mkContext (Some "F") None None))
  = Ok (obj [("$eq", FList [FStr "$F"; FNum 1])])
  /\
  ProjectionSchemaFreeParser.handle spec_base
    (equals (ast.Name "F" 0) (ast.Dict [ast.Str "k" 6] [ast.Num 1 11] 5)) no_context
  = Ok (obj [("$and", FList [obj [("k", obj [("$eq", FList [FStr "$None"; FNum 1])])]])])
  /\
  ProjectionSchemaFreeParser.handle spec_base
    (equals (ast.Name "F" 0) (ast.Dict [ast.Str "k" 6] [ast.Num 1 11] 5)) no_context
  <> Ok (obj [("$and", FList [obj [("k", obj [("$eq", FList [FStr "$F"; FNum 1])])]])]).
Proof. split; [reflexivity | split; [reflexivity | vm_compute; discriminate]]. Qed.

(** * Further properties of the module *)

(** ** Field paths and aliases *)

Lemma dotless_append a b : dotless (a +:+ b) = dotless a && dotless b.
Proof.
  induction a as [|ch a IH]; [reflexivity|].
  change (String ch a +:+ b) with (String ch (a +:+ b)).
  cbn [dotless]. rewrite IH. rewrite andb_assoc. reflexivity.
Qed.

Lemma last_segment_from_is_dotless acc s :
  dotless acc = true -> dotless (last_segment_from acc s) = true.
Proof.
  revert acc. induction s as [|ch rest IH]; intros acc Hacc; [exact Hacc|].
  cbn [last_segment_from]. destruct (Ascii.eqb ch ".") eqn:Hch.
  - apply IH. reflexivity.
  - apply IH. rewrite dotless_append, Hacc. cbn [dotless]. rewrite Hch. reflexivity.
Qed.

(** X1: the alias [split('.')[-1]] of a path never contains a dot, is the
    path itself when the path has none, and is not changed by anything
    written before a dot in front of the path. *)
Theorem last_segment_characterised s :
  dotless (last_segment s) = true
  /\ (dotless s = true -> last_segment s = s)
  /\ (forall base, last_segment (base +:+ "." +:+ s) = last_segment s).
Proof.
  split; [|split].
  - apply last_segment_from_is_dotless. reflexivity.
  - apply last_segment_dotless.
  - intros base. apply last_segment_after_dot.
Qed.

Lemma last_segment_characterised_witness :
  dotless (last_segment "specific_data.data.name") = true
  /\ dotless "name" = true
  /\ last_segment "name" = "name"
  /\ last_segment ("specific_data.data" +:+ "." +:+ "name") = last_segment "name".
Proof.
  destruct (last_segment_characterised "name") as (_ & Hself & Hdot).
  split; [exact (proj1 (last_segment_characterised "specific_data.data.name"))|].
  split; [reflexivity|]. split; [exact (Hself eq_refl)|]. exact (Hdot "specific_data.data").
Defined.

(** X2: [FieldName] resolves a node exactly when it is a string, a name or an
    attribute access on a node it resolves; every other node, at any depth
    of the base, makes it fail. *)
Theorem FieldName_resolves_paths_only node :
  is_path node = true <-> exists P, FieldName.handle node = Ok P.
Proof.
  induction node; cbn [is_path FieldName.handle];
    try (split; [discriminate | intros [P HP]; discriminate]);
    try (split; [intros _; eexists; reflexivity | reflexivity]).
  rewrite IHnode. split.
  - intros [P HP]. rewrite HP. eexists. reflexivity.
  - intros [P HP]. destruct (FieldName.handle node) as [base|e]; [|discriminate].
    exists base. reflexivity.
Qed.

Lemma FieldName_resolves_paths_only_witness :
  is_path (ast.Attribute (ast.Name "a" 0) "b" 0) = true
  /\ (exists P, FieldName.handle (ast.Attribute (ast.Name "a" 0) "b" 0) = Ok P)
  /\ is_path (ast.Attribute (ast.Num 1 0) "b" 0) = false.
Proof.
  split; [reflexivity|]. split; [|reflexivity].
  exact (proj1 (FieldName_resolves_paths_only (ast.Attribute (ast.Name "a" 0) "b" 0))
               eq_refl).
Defined.

(** X3: a chain of attribute accesses on a base that resolves to [b]
    resolves to [b] followed by the attribute names, each after a dot, in
    the order they are written. *)
Theorem FieldName_dotted_path base b attrs :
  FieldName.handle base = Ok b ->
  FieldName.handle (attributes base attrs) = Ok (dotted b attrs).
Proof.
  revert base b. induction attrs as [|a attrs IH]; intros base b Hbase; [exact Hbase|].
  cbn [attributes dotted fold_left]. apply IH.
  cbn [FieldName.handle]. rewrite Hbase. reflexivity.
Qed.

Lemma FieldName_dotted_path_witness :
  FieldName.handle (ast.Name "specific_data" 0) = Ok "specific_data"
  /\ FieldName.handle
       (ast.Attribute (ast.Attribute (ast.Name "specific_data" 0) "data" 0) "name" 0)
     = Ok "specific_data.data.name".
Proof.
  split; [reflexivity|].
  exact (FieldName_dotted_path (ast.Name "specific_data" 0) "specific_data"
           [("data", 0); ("name", 0)] eq_refl).
Defined.

(** A closed instance of X4. *)
Lemma last_segment_attribute_witness :
  FieldName.handle (ast.Name "adapters" 0) = Ok "adapters"
  /\ dotless "data" = true
  /\ exists P, FieldName.handle (ast.Attribute (ast.Name "adapters" 0) "data" 0) = Ok P
               /\ last_segment P = "data".
Proof.
  split; [reflexivity|]. split; [reflexivity|].
  exact (last_segment_attribute (ast.Name "adapters" 0) "data" 0 "adapters" eq_refl eq_refl).
Defined.

(** ** Boolean combinations *)

Lemma mapM_Ok {A B : Type} (f : A -> result B) xs ys :
  mapM f xs = Ok ys <-> Forall2 (fun x y => f x = Ok y) xs ys.
Proof.
  revert ys. induction xs as [|x xs IH]; intros ys; cbn [mapM].
  - split.
    + intros [= <-]. constructor.
    + intros H. inversion H. reflexivity.
  - split.
    + destruct (f x) as [y|e] eqn:Hx; [|discriminate]. cbn [bind].
      destruct (mapM f xs) as [ys'|e] eqn:Hxs; [|discriminate]. cbn [bind].
      intros [= <-]. constructor; [exact Hx | apply IH; reflexivity].
    + intros H. inversion H as [|x' y xs' ys' Hx Hxs]; subst.
      rewrite Hx. cbn [bind]. apply IH in Hxs. rewrite Hxs. reflexivity.
Qed.

Lemma mapM_first_failure {A B : Type} (f : A -> result B) before x after done e :
  Forall2 (fun x y => f x = Ok y) before done ->
  f x = Raise e ->
  mapM f (before ++ x :: after) = Raise e.
Proof.
  intros Hbefore Hx. induction Hbefore as [|x0 y0 before done Hx0 _ IH].
  - cbn. rewrite Hx. reflexivity.
  - cbn. rewrite Hx0. cbn [bind]. cbn in IH. rewrite IH. reflexivity.
Qed.

(** X5: [and]/[or] yields a fragment exactly when every operand does, and
    the fragment is then [{"$and": [...]}] or [{"$or": [...]}] over the
    operands' fragments, one per operand and in their order, with nested
    combinations kept as they are. *)
Theorem BoolOp_translation B _operator_map op values col c fragment :
  ProjectionParser.handle B _operator_map (ast.BoolOp op values col) c = Ok fragment
  <-> exists operands,
        Forall2 (fun value operand =>
                   ProjectionParser.handle B _operator_map value c = Ok operand)
                values operands
        /\ fragment = obj [(ProjectionParser.handle_boolop op, FList operands)].
Proof.
  cbn [ProjectionParser.handle]. split.
  - destruct (mapM _ values) as [operands|e] eqn:Hvalues; [|discriminate].
    intros [= <-]. exists operands. split; [apply mapM_Ok, Hvalues | reflexivity].
  - intros (operands & Hvalues & ->). apply mapM_Ok in Hvalues. rewrite Hvalues. reflexivity.
Qed.

Lemma BoolOp_translation_witness :
  Forall2 (fun value operand =>
             ProjectionSchemaFreeParser.handle spec_base value tags_array = Ok operand)
          [equals (ast.Name "tags" 0) (ast.Num 1 8);
           ast.BoolOp ast.Or [equals (ast.Name "a" 14) (ast.Num 2 19)] 14]
          [obj [("$eq", FList [FStr "$$tags"; FNum 1])];
           obj [("$or", FList [obj [("$eq", FList [FStr "$a"; FNum 2])]])]]
  /\
  ProjectionSchemaFreeParser.handle spec_base
    (ast.BoolOp ast.And
       [equals (ast.Name "tags" 0) (ast.Num 1 8);
        ast.BoolOp ast.Or [equals (ast.Name "a" 14) (ast.Num 2 19)] 14] 0) tags_array
  = Ok (obj [("$and", FList [
          obj [("$eq", FList [FStr "$$tags"; FNum 1])];
          obj [("$or", FList [obj [("$eq", FList [FStr "$a"; FNum 2])]])]])]).
Proof.
  assert (Hoperands :
    Forall2 (fun value operand =>
               ProjectionSchemaFreeParser.handle spec_base value tags_array = Ok operand)
            [equals (ast.Name "tags" 0) (ast.Num 1 8);
             ast.BoolOp ast.Or [equals (ast.Name "a" 14) (ast.Num 2 19)] 14]
            [obj [("$eq", FList [FStr "$$tags"; FNum 1])];
             obj [("$or", FList [obj [("$eq", FList [FStr "$a"; FNum 2])]])]]).
  { repeat constructor; vm_compute; reflexivity. }
  split; [exact Hoperands|].
  apply (proj2 (BoolOp_translation spec_base
                  (ProjectionSchemaFreeOperatorMap.handle spec_base) ast.And _ 0
                  tags_array _)).
  eexists. split; [exact Hoperands | reflexivity].
Defined.

(** X6: the operands of [and]/[or] are translated from left to right and the
    first one that fails decides the outcome: its exception is the
    exception of the whole combination, whatever follows it. *)
Theorem BoolOp_first_failure B _operator_map op before value after col c operands e :
  Forall2 (fun v operand => ProjectionParser.handle B _operator_map v c = Ok operand)
          before operands ->
  ProjectionParser.handle B _operator_map value c = Raise e ->
  ProjectionParser.handle B _operator_map (ast.BoolOp op (before ++ value :: after) col) c
  = Raise e.
Proof.
  intros Hbefore Hvalue. cbn [ProjectionParser.handle].
  rewrite (mapM_first_failure _ _ _ _ _ _ Hbefore Hvalue). reflexivity.
Qed.

Lemma BoolOp_first_failure_witness :
  Forall2 (fun v operand =>
             ProjectionSchemaFreeParser.handle spec_base v no_context = Ok operand)
          [equals (ast.Name "a" 0) (ast.Num 1 5)]
          [obj [("$eq", FList [FStr "$a"; FNum 1])]]
  /\ ProjectionSchemaFreeParser.handle spec_base (ast.Call (ast.Name "search" 11) [] 11)
       no_context = Raise EIndexError
  /\ ProjectionSchemaFreeParser.handle spec_base
       (ast.BoolOp ast.And
          ([equals (ast.Name "a" 0) (ast.Num 1 5)]
             ++ ast.Call (ast.Name "search" 11) [] 11
             :: [equals (ast.Name "b" 24) (ast.Name "nope" 29)]) 0) no_context
     = Raise EIndexError.
Proof.
  assert (Hbefore :
    Forall2 (fun v operand =>
               ProjectionSchemaFreeParser.handle spec_base v no_context = Ok operand)
            [equals (ast.Name "a" 0) (ast.Num 1 5)]
            [obj [("$eq", FList [FStr "$a"; FNum 1])]]).
  { repeat constructor. }
  split; [exact Hbefore|]. split; [reflexivity|].
  exact (BoolOp_first_failure spec_base (ProjectionSchemaFreeOperatorMap.handle spec_base)
           ast.And [equals (ast.Name "a" 0) (ast.Num 1 5)]
           (ast.Call (ast.Name "search" 11) [] 11)
           [equals (ast.Name "b" 24) (ast.Name "nope" 29)] 0 no_context
           [obj [("$eq", FList [FStr "$a"; FNum 1])]] EIndexError Hbefore eq_refl).
Defined.

(** ** NOT and top-level calls *)

(** X7: [not operand] yields a fragment exactly when the operand translates
    to a dict with at least one item, and the fragment is then [$not] over
    the first item alone; an operand that translates to an empty dict or to
    a value that is not a dict makes it fail. *)
Theorem UnaryOp_Not_translation B _operator_map operand col c fragment :
  ProjectionParser.handle B _operator_map (ast.UnaryOp ast.Not operand col) c = Ok fragment
  <-> exists field value others,
        ProjectionParser.handle B _operator_map operand c
        = Ok (FDict ((field, value) :: others))
        /\ fragment = obj [("$not", FDict [(field, value)])].
Proof.
  cbn [ProjectionParser.handle]. unfold ProjectionParser.handle_UnaryOp. split.
  - destruct (ProjectionParser.handle B _operator_map operand c) as [operator|e];
      [|discriminate].
    destruct operator as [| | | | |items]; try discriminate.
    destruct items as [|[field value] others]; [discriminate|].
    intros [= <-]. exists field, value, others. split; reflexivity.
  - intros (field & value & others & -> & ->). reflexivity.
Qed.

Lemma UnaryOp_Not_translation_witness :
  (exists field value others,
     ProjectionSchemaFreeParser.handle spec_base
       (ast.Call (ast.Name "search" 4) [ast.Str "needle" 11] 4) no_context
     = Ok (FDict ((field, value) :: others))
     /\ obj [("$not", obj [("$text", obj [("$search", FStr (dquote +:+ "needle" +:+ dquote));
                                          ("$caseSensitive", FBool false)])])]
        = obj [("$not", FDict [(field, value)])])
  /\
  ProjectionSchemaFreeParser.handle spec_base
    (ast.UnaryOp ast.Not (ast.Call (ast.Name "search" 4) [ast.Str "needle" 11] 4) 0)
    no_context
  = Ok (obj [("$not", obj [("$text", obj [("$search", FStr (dquote +:+ "needle" +:+ dquote));
                                          ("$caseSensitive", FBool false)])])]).
Proof.
  assert (Hoperand : exists field value others,
     ProjectionSchemaFreeParser.handle spec_base
       (ast.Call (ast.Name "search" 4) [ast.Str "needle" 11] 4) no_context
     = Ok (FDict ((field, value) :: others))
     /\ obj [("$not", obj [("$text", obj [("$search", FStr (dquote +:+ "needle" +:+ dquote));
                                          ("$caseSensitive", FBool false)])])]
        = obj [("$not", FDict [(field, value)])]).
  { eexists _, _, _. split; reflexivity. }
  split; [exact Hoperand|].
  exact (proj2 (UnaryOp_Not_translation spec_base
                  (ProjectionSchemaFreeOperatorMap.handle spec_base)
                  (ast.Call (ast.Name "search" 4) [ast.Str "needle" 11] 4) 0 no_context _)
               Hoperand).
Defined.

(** X8: a call at the top of an expression is translated only if it calls
    the name [search] with at least one positional argument; a call of any
    other name fails with the [ParseError] "Unsupported method call" and
    the name, whatever its arguments. *)
Theorem top_level_call_is_search B _operator_map func args col c :
  (forall id idcol,
     func = ast.Name id idcol ->
     id <> "search" ->
     exists err,
       ProjectionParser.handle B _operator_map (ast.Call func args col) c = Raise (EParse err)
       /\ message err = "Unsupported method call " +:+ id)
  /\
  (forall fragment,
     ProjectionParser.handle B _operator_map (ast.Call func args col) c = Ok fragment ->
     exists idcol first others,
       func = ast.Name "search" idcol /\ args = first :: others).
Proof.
  cbn [ProjectionParser.handle]. unfold ProjectionParser.handle_Call. split.
  - intros id idcol -> Hid. apply String.eqb_neq in Hid. rewrite Hid. cbn [negb].
    eexists. split; reflexivity.
  - intros fragment. destruct func; try discriminate.
    destruct (String.eqb id "search") eqn:Hid; cbn [negb]; [|discriminate].
    apply String.eqb_eq in Hid. subst id.
    destruct args as [|first others]; [discriminate|].
    intros _. eexists _, first, others. split; reflexivity.
Qed.

Lemma top_level_call_is_search_witness :
  (ast.Name "exists" 0 = ast.Name "exists" 0
   /\ "exists" <> "search"
   /\ exists err,
        ProjectionSchemaFreeParser.handle spec_base
          (ast.Call (ast.Name "exists" 0) [ast.NameConstant (Some true) 7] 0) no_context
        = Raise (EParse err)
        /\ message err = "Unsupported method call exists")
  /\
  (ProjectionSchemaFreeParser.handle spec_base
     (ast.Call (ast.Name "search" 0) [ast.Str "needle" 7] 0) no_context
   = Ok (obj [("$text", obj [("$search", FStr (dquote +:+ "needle" +:+ dquote));
                             ("$caseSensitive", FBool false)])])
   /\ exists idcol first others,
        ast.Name "search" 0 = ast.Name "search" idcol
        /\ [ast.Str "needle" 7] = first :: others).
Proof.
  assert (Hname : "exists" <> "search") by discriminate.
  split.
  - split; [reflexivity|]. split; [exact Hname|].
    exact (proj1 (top_level_call_is_search spec_base
                    (ProjectionSchemaFreeOperatorMap.handle spec_base)
                    (ast.Name "exists" 0) [ast.NameConstant (Some true) 7] 0 no_context)
                 "exists" 0 eq_refl Hname).
  - split; [reflexivity|].
    exact (proj2 (top_level_call_is_search spec_base
                    (ProjectionSchemaFreeOperatorMap.handle spec_base)
                    (ast.Name "search" 0) [ast.Str "needle" 7] 0 no_context)
                 _ eq_refl).
Defined.

(** ** Comparisons with a literal *)

(** The schema-free translation of [left == right] once the field and the
    inner condition are known. *)
Lemma schema_free_comparison B left P right ccol c cond :
  FieldName.handle left = Ok P ->
  ProjectionField.handle B right ProjectionGenericField
    (Kw (mkContext (Some P) (array_fields c) (complex_fields c))) = Ok cond ->
  ProjectionSchemaFreeParser.handle B (ast.Compare left [ast.Eq] [right] ccol) c
  = if truthy_and_in (complex_fields c) (Some P) && truthy_and_in (array_fields c) (Some P)
    then Ok (ProjectionMap.any_element_true P cond)
    else Ok cond.
Proof.
  intros Hleft Hcond.
  unfold ProjectionSchemaFreeParser.handle, ProjectionSchemaFreeOperatorMap.handle.
  cbn [ProjectionParser.handle ProjectionParser.handle_Compare].
  erewrite ProjectionMap_handle_outcome; [ | exact Hleft | reflexivity | exact Hcond ].
  destruct (truthy_and_in (complex_fields c) (Some P) && truthy_and_in (array_fields c) (Some P));
    reflexivity.
Qed.

(** X9: outside [array_fields], comparing the field [P] with a number, or
    (for a non-empty [P]) with a string, yields [{"$eq": ["$P", literal]}],
    whatever [complex_fields] is. *)
Theorem scalar_comparison_root_reference B left P ccol c :
  FieldName.handle left = Ok P ->
  ~ in_fields (array_fields c) P ->
  (forall n ncol,
     ProjectionSchemaFreeParser.handle B (ast.Compare left [ast.Eq] [ast.Num n ncol] ccol) c
     = Ok (obj [("$eq", FList [FStr ("$" +:+ P); FNum n])]))
  /\
  (P <> "" -> forall s scol,
     ProjectionSchemaFreeParser.handle B (ast.Compare left [ast.Eq] [ast.Str s scol] ccol) c
     = Ok (obj [("$eq", FList [FStr ("$" +:+ P); FStr s])])).
Proof.
  intros Hleft Harr.
  assert (Hguard : truthy_and_in (complex_fields c) (Some P)
                   && truthy_and_in (array_fields c) (Some P) = false).
  { apply andb_false_iff. right. apply truthy_and_in_false, Harr. }
  split.
  - intros n ncol.
    rewrite (schema_free_comparison B left P (ast.Num n ncol) ccol c _ Hleft eq_refl).
    rewrite Hguard. cbn [defaults].
    rewrite (field_reference_root _ _ (complex_fields c) Harr). reflexivity.
  - intros HP s scol.
    assert (Hcond : ProjectionField.handle B (ast.Str s scol) ProjectionGenericField
              (Kw (mkContext (Some P) (array_fields c) (complex_fields c)))
            = Ok (obj [("$eq", FList [FStr ("$" +:+ P); FStr s])])).
    { pose proof (string_condition B P (array_fields c) (complex_fields c) s scol HP) as H.
      rewrite (field_reference_root _ _ (complex_fields c) Harr) in H. exact H. }
    rewrite (schema_free_comparison B left P (ast.Str s scol) ccol c _ Hleft Hcond).
    rewrite Hguard. reflexivity.
Qed.

Lemma scalar_comparison_root_reference_witness :
  FieldName.handle (ast.Attribute (ast.Name "data" 0) "name" 0) = Ok "data.name"
  /\ ~ in_fields (array_fields tags_array) "data.name"
  /\ "data.name" <> ""
  /\ ProjectionSchemaFreeParser.handle spec_base
       (ast.Compare (ast.Attribute (ast.Name "data" 0) "name" 0) [ast.Eq] [ast.Num 7 13] 0)
       tags_array
     = Ok (obj [("$eq", FList [FStr "$data.name"; FNum 7])])
  /\ ProjectionSchemaFreeParser.handle spec_base
       (ast.Compare (ast.Attribute (ast.Name "data" 0) "name" 0) [ast.Eq] [ast.Str "x" 13] 0)
       tags_array
     = Ok (obj [("$eq", FList [FStr "$data.name"; FStr "x"])]).
Proof.
  assert (Harr : ~ in_fields (array_fields tags_array) "data.name").
  { apply truthy_and_in_false. vm_compute. reflexivity. }
  assert (HP : "data.name" <> "") by discriminate.
  destruct (scalar_comparison_root_reference spec_base
              (ast.Attribute (ast.Name "data" 0) "name" 0) "data.name" 0 tags_array
              eq_refl Harr) as [Hnum Hstr].
  split; [reflexivity|]. split; [exact Harr|]. split; [exact HP|].
  split; [exact (Hnum 7 13) | exact (Hstr HP "x" 13)].
Defined.

(** X10: for a field [P] that is in [array_fields] but not in
    [complex_fields], a comparison with a number is rendered against the
    alias ["$$" + last segment] and is not wrapped: the alias then stands
    outside of any [$map]. *)
Theorem array_only_comparison_uses_bare_alias B left P n ncol ccol c :
  FieldName.handle left = Ok P ->
  in_fields (array_fields c) P ->
  ~ in_fields (complex_fields c) P ->
  ProjectionSchemaFreeParser.handle B (ast.Compare left [ast.Eq] [ast.Num n ncol] ccol) c
  = Ok (obj [("$eq", FList [FStr ("$$" +:+ last_segment P); FNum n])]).
Proof.
  intros Hleft Harr Hcplx.
  rewrite (schema_free_comparison B left P (ast.Num n ncol) ccol c _ Hleft eq_refl).
  apply truthy_and_in_false in Hcplx. rewrite Hcplx. cbn [andb defaults].
  rewrite (field_reference_array _ _ (complex_fields c) Harr). reflexivity.
Qed.

Lemma array_only_comparison_uses_bare_alias_witness :
  FieldName.handle (ast.Name "tags" 0) = Ok "tags"
  /\ in_fields (array_fields tags_array) "tags"
  /\ ~ in_fields (complex_fields tags_array) "tags"
  /\ ProjectionSchemaFreeParser.handle spec_base
       (ast.Compare (ast.Name "tags" 0) [ast.Eq] [ast.Num 1 8] 0) tags_array
     = Ok (obj [("$eq", FList [FStr "$$tags"; FNum 1])]).
Proof.
  assert (Harr : in_fields (array_fields tags_array) "tags").
  { exists {["tags"]}. split; [reflexivity | apply elem_of_singleton; reflexivity]. }
  assert (Hcplx : ~ in_fields (complex_fields tags_array) "tags").
  { intros (s & Hs & _). discriminate. }
  split; [reflexivity|]. split; [exact Harr|]. split; [exact Hcplx|].
  exact (array_only_comparison_uses_bare_alias spec_base (ast.Name "tags" 0) "tags" 1 8 0
           tags_array eq_refl Harr Hcplx).
Defined.

(** ** Function calls on the right of a comparison *)

(** X11: for a field [P] in both [array_fields] and [complex_fields],
    [P == regexMatch(pat)] is the existential template around a condition
    whose type guard and [input] both name the alias
    ["$$" + last segment], never ["$P"]. *)
Theorem regexMatch_under_elevation B left P pat pcol idcol col ccol c :
  FieldName.handle left = Ok P ->
  in_fields (array_fields c) P ->
  in_fields (complex_fields c) P ->
  ProjectionSchemaFreeParser.handle B
    (ast.Compare left [ast.Eq]
       [ast.Call (ast.Name "regexMatch" idcol) [ast.Str pat pcol] col] ccol) c
  = Ok (ProjectionMap.any_element_true P
          (obj [("$and", FList [
             obj [("$eq", FList [FStr "string";
                                 obj [("$type", FStr ("$$" +:+ last_segment P))]])];
             obj [("$regexMatch", obj [("input", FStr ("$$" +:+ last_segment P));
                                       ("regex", FStr pat)])]])])).
Proof.
  intros Hleft Harr Hcplx.
  rewrite (schema_free_comparison B left P _ ccol c _ Hleft
             (regexMatch_condition B _ pat pcol idcol col)).
  rewrite (proj2 (elevation_guard c P) (conj Harr Hcplx)).
  rewrite (field_reference_array _ _ (complex_fields c) Harr). reflexivity.
Qed.

Lemma regexMatch_under_elevation_witness :
  FieldName.handle (ast.Name "tags" 0) = Ok "tags"
  /\ in_fields (array_fields tags_array_of_documents) "tags"
  /\ in_fields (complex_fields tags_array_of_documents) "tags"
  /\ ProjectionSchemaFreeParser.handle spec_base
       (ast.Compare (ast.Name "tags" 0) [ast.Eq]
          [ast.Call (ast.Name "regexMatch" 8) [ast.Str "^a" 19] 8] 0)
       tags_array_of_documents
     = Ok (ProjectionMap.any_element_true "tags"
             (obj [("$and", FList [
                obj [("$eq", FList [FStr "string"; obj [("$type", FStr "$$tags")]])];
                obj [("$regexMatch", obj [("input", FStr "$$tags");
                                          ("regex", FStr "^a")])]])])).
Proof.
  assert (Hin : in_fields (Some {["tags"]}) "tags").
  { exists {["tags"]}. split; [reflexivity | apply elem_of_singleton; reflexivity]. }
  split; [reflexivity|]. split; [exact Hin|]. split; [exact Hin|].
  exact (regexMatch_under_elevation spec_base (ast.Name "tags" 0) "tags" "^a" 19 8 8 0
           tags_array_of_documents eq_refl Hin Hin).
Defined.



(** X13: in [left == name], for a left side that resolves to a field path
    and a name that is none of the generic field's special values, the
    comparison fails with "Invalid name", carrying the column of the name
    and exactly the special names as options; [handle_Compare] lets the
    error through, so no field-to-field comparison is attempted. *)
Theorem invalid_name_propagates B left P id col ccol c :
  FieldName.handle left = Ok P ->
  SPECIAL_VALUES B ProjectionGenericField !! id = None ->
  exists names,
    ProjectionSchemaFreeParser.handle B
      (ast.Compare left [ast.Eq] [ast.Name id col] ccol) c
    = Raise (EParse (mkParseError ("Invalid name: " +:+ id) (Some col) (Some names)))
    /\ list_to_set names = dom (SPECIAL_VALUES B ProjectionGenericField).
Proof.
  intros Hleft Hid. exists (map_to_list (SPECIAL_VALUES B ProjectionGenericField)).*1.
  split; [|symmetry; apply leibniz_equiv, dom_alt].
  unfold ProjectionSchemaFreeParser.handle, ProjectionSchemaFreeOperatorMap.handle.
  cbn [ProjectionParser.handle ProjectionParser.handle_Compare].
  unfold ProjectionMap.handle, ProjectionMap.resolve_field. rewrite Hleft.
  cbn [bind ProjectionSchemaFreeOperatorMap.resolve_type].
  unfold handle_operator_with_right_and_left, ProjectionOperator.handle_Eq.
  cbn [ProjectionField.handle]. unfold ProjectionField.handle_Name. rewrite Hid.
  cbn [bind message]. reflexivity.
Qed.

Lemma invalid_name_propagates_witness :
  FieldName.handle (ast.Name "a" 0) = Ok "a"
  /\ SPECIAL_VALUES spec_base ProjectionGenericField !! "b" = None
  /\ exists names,
       ProjectionSchemaFreeParser.handle spec_base
         (ast.Compare (ast.Name "a" 0) [ast.Eq] [ast.Name "b" 5] 0) no_context
       = Raise (EParse (mkParseError "Invalid name: b" (Some 5) (Some names)))
       /\ list_to_set names = dom (SPECIAL_VALUES spec_base ProjectionGenericField).
Proof.
  assert (Hb : SPECIAL_VALUES spec_base ProjectionGenericField !! "b" = None).
  { vm_compute. reflexivity. }
  split; [reflexivity|]. split; [exact Hb|].
  exact (invalid_name_propagates spec_base (ast.Name "a" 0) "a" "b" 5 0 no_context
           eq_refl Hb).
Defined.

(** A closed instance of C6: [name == exists(True)]. *)
Lemma exists_through_comparison_witness :
  FieldName.handle (ast.Name "name" 0) = Ok "name"
  /\ ProjectionSchemaFreeParser.handle spec_base
       (ast.Compare (ast.Name "name" 0) [ast.Eq]
          [ast.Call (ast.Name "exists" 8) [ast.NameConstant (Some true) 15] 8] 0)
       tags_array
     = Raise ETypeError.
Proof.
  split; [reflexivity|].
  exact (exists_through_comparison spec_base (ast.Name "name" 0) "name" 8
           [ast.NameConstant (Some true) 15] 8 0 tags_array eq_refl).
Defined.

(** X15: in [left == f(...)], for a left side that resolves to a field path
    and a function [f] that neither this module nor the imported function
    classes define, the comparison fails with "Unsupported function (f).",
    at the column of the call and with the function options; the arguments
    are not looked at and no field-to-field comparison is attempted. *)
Theorem unknown_function_propagates B left P id idcol args col ccol c :
  FieldName.handle left = Ok P ->
  id <> "exists" ->
  id <> "regexMatch" ->
  inherited_func B id = None ->
  ProjectionSchemaFreeParser.handle B
    (ast.Compare left [ast.Eq] [ast.Call (ast.Name id idcol) args col] ccol) c
  = Raise (EParse (mkParseError ("Unsupported function (" +:+ id +:+ ").")
                                (Some col) (func_options B))).
Proof.
  intros Hleft Hexists Hregex Hnone.
  apply String.eqb_neq in Hexists. apply String.eqb_neq in Hregex.
  unfold ProjectionSchemaFreeParser.handle, ProjectionSchemaFreeOperatorMap.handle.
  cbn [ProjectionParser.handle ProjectionParser.handle_Compare].
  unfold ProjectionMap.handle, ProjectionMap.resolve_field. rewrite Hleft.
  cbn [bind ProjectionSchemaFreeOperatorMap.resolve_type].
  unfold handle_operator_with_right_and_left, ProjectionOperator.handle_Eq.
  cbn [ProjectionField.handle]. unfold ProjectionGenericFunc.handle.
  rewrite Hexists, Hregex, Hnone. cbn [bind message]. reflexivity.
Qed.

Lemma unknown_function_propagates_witness :
  FieldName.handle (ast.Name "a" 0) = Ok "a"
  /\ "frobnicate" <> "exists"
  /\ "frobnicate" <> "regexMatch"
  /\ inherited_func spec_base "frobnicate" = None
  /\ ProjectionSchemaFreeParser.handle spec_base
       (ast.Compare (ast.Name "a" 0) [ast.Eq]
          [ast.Call (ast.Name "frobnicate" 5) [ast.Num 1 16] 5] 0) no_context
     = Raise (EParse (mkParseError "Unsupported function (frobnicate)." (Some 5) None)).
Proof.
  assert (H1 : "frobnicate" <> "exists") by discriminate.
  assert (H2 : "frobnicate" <> "regexMatch") by discriminate.
  split; [reflexivity|]. split; [exact H1|]. split; [exact H2|]. split; [reflexivity|].
  exact (unknown_function_propagates spec_base (ast.Name "a" 0) "a" "frobnicate" 5
           [ast.Num 1 16] 5 0 no_context eq_refl H1 H2 eq_refl).
Defined.

(** ** Dict literals: keys *)

(** X16: a dict literal whose first key is one of the special names is not
    translated: the key is rendered as a comparison fragment, a dict, which
    cannot be a key, and once the first value is translated the literal
    fails with [TypeError]. *)
Theorem dict_key_special_name B id kcol special value translated keys values col kw :
  SPECIAL_VALUES B ProjectionStringField !! id = Some special ->
  ProjectionField.handle B value ProjectionGenericField NoKw = Ok translated ->
  ProjectionField.handle B (ast.Dict (ast.Name id kcol :: keys) (value :: values) col)
    ProjectionGenericField kw
  = Raise ETypeError.
Proof.
  intros Hid Hvalue. cbn [ProjectionField.handle map field_or_generic].
  unfold ProjectionField.handle_Name at 1. rewrite Hid, Hvalue. reflexivity.
Qed.

Lemma dict_key_special_name_witness :
  SPECIAL_VALUES spec_base ProjectionStringField !! "null" = Some FNone
  /\ ProjectionField.handle spec_base (ast.Num 1 12) ProjectionGenericField NoKw
     = Ok (obj [("$eq", FList [FStr "$None"; FNum 1])])
  /\ ProjectionField.handle spec_base
       (ast.Dict [ast.Name "null" 6] [ast.Num 1 12] 5)
       ProjectionGenericField (Kw (mkContext (Some "F") None None))
     = Raise ETypeError.
Proof.
  assert (Hnull : SPECIAL_VALUES spec_base ProjectionStringField !! "null" = Some FNone).
  { vm_compute. reflexivity. }
  split; [exact Hnull|]. split; [reflexivity|].
  exact (dict_key_special_name spec_base "null" 6 FNone (ast.Num 1 12) _ [] [] 5
           (Kw (mkContext (Some "F") None None)) Hnull eq_refl).
Defined.

(** ** Schema-aware resolution *)

(** X17: a field that [resolve_field] returns is the path of the node and is
    declared, so [resolve_type] on it returns its declared type and cannot
    raise [KeyError]. *)
Theorem resolved_field_has_type (_field_to_type : gmap string field_type) node field :
  SchemaAwareOperatorMap.resolve_field _field_to_type node = Ok field ->
  FieldName.handle node = Ok field
  /\ exists type, _field_to_type !! field = Some type
                  /\ SchemaAwareOperatorMap.resolve_type _field_to_type field = Ok type.
Proof.
  unfold SchemaAwareOperatorMap.resolve_field, SchemaAwareOperatorMap.resolve_type.
  destruct (FieldName.handle node) as [path|e]; [|discriminate]. cbn [bind].
  destruct (_field_to_type !! path) as [type|] eqn:Hpath; [|discriminate].
  intros [= <-]. split; [reflexivity|]. exists type. rewrite Hpath. split; reflexivity.
Qed.

Lemma resolved_field_has_type_witness :
  SchemaAwareOperatorMap.resolve_field example_schema (ast.Name "age" 0) = Ok "age"
  /\ FieldName.handle (ast.Name "age" 0) = Ok "age"
  /\ exists type, example_schema !! "age" = Some type
                  /\ SchemaAwareOperatorMap.resolve_type example_schema "age" = Ok type.
Proof.
  assert (Hage : SchemaAwareOperatorMap.resolve_field example_schema (ast.Name "age" 0)
                 = Ok "age") by (vm_compute; reflexivity).
  split; [exact Hage|].
  exact (resolved_field_has_type example_schema (ast.Name "age" 0) "age" Hage).
Defined.

(** X18: the schema-aware operator map yields a fragment exactly for a left
    side that resolves to a declared field whose type translates the
    operator and right side; the fragment is then the one-item dict
    [{field: condition}]. *)
Theorem schema_aware_handle_translation (_field_to_type : gmap string field_type)
    handle_operator_and_right operator left right fragment :
  SchemaAwareOperatorMap.handle _field_to_type handle_operator_and_right operator left right
  = Ok fragment
  <-> exists field type condition,
        FieldName.handle left = Ok field
        /\ _field_to_type !! field = Some type
        /\ handle_operator_and_right type operator right = Ok condition
        /\ fragment = FDict [(FStr field, condition)].
Proof.
  unfold SchemaAwareOperatorMap.handle, OperatorMap.handle,
    SchemaAwareOperatorMap.resolve_field, SchemaAwareOperatorMap.resolve_type. split.
  - destruct (FieldName.handle left) as [field|e]; [|discriminate]. cbn [bind].
    destruct (_field_to_type !! field) as [type|] eqn:Hfield; [|discriminate].
    cbn [bind]. rewrite Hfield. cbn [bind].
    destruct (handle_operator_and_right type operator right) as [condition|e] eqn:Hcond;
      [|discriminate].
    intros [= <-]. exists field, type, condition. repeat split; assumption.
  - intros (field & type & condition & -> & Hfield & Hcond & ->). cbn [bind].
    rewrite Hfield. cbn [bind]. rewrite Hfield. cbn [bind]. rewrite Hcond. reflexivity.
Qed.

Lemma schema_aware_handle_translation_witness :
  (exists field type condition,
     FieldName.handle (ast.Name "age" 0) = Ok field
     /\ example_schema !! field = Some type
     /\ (fun (_ : field_type) (_ : ast.cmpop) (_ : ast.expr) => Ok (FNum 3))
          type ast.Eq (ast.Num 3 7) = Ok condition
     /\ obj [("age", FNum 3)] = FDict [(FStr field, condition)])
  /\
  SchemaAwareOperatorMap.handle example_schema
    (fun (_ : field_type) (_ : ast.cmpop) (_ : ast.expr) => Ok (FNum 3))
    ast.Eq (ast.Name "age" 0) (ast.Num 3 7)
  = Ok (obj [("age", FNum 3)]).
Proof.
  assert (Hshape : exists field type condition,
     FieldName.handle (ast.Name "age" 0) = Ok field
     /\ example_schema !! field = Some type
     /\ (fun (_ : field_type) (_ : ast.cmpop) (_ : ast.expr) => Ok (FNum 3))
          type ast.Eq (ast.Num 3 7) = Ok condition
     /\ obj [("age", FNum 3)] = FDict [(FStr field, condition)]).
  { exists "age", ProjectionIntField, (FNum 3).
    split; [reflexivity|]. split; [vm_compute; reflexivity|]. split; reflexivity. }
  split; [exact Hshape|].
  exact (proj2 (schema_aware_handle_translation example_schema _ ast.Eq (ast.Name "age" 0)
                  (ast.Num 3 7) _) Hshape).
Defined.

(** X19: on a left side that resolves to an undeclared field the
    schema-aware operator map fails with the "Field not found" error of
    [resolve_field], for every operator and right side: the right side is
    not translated. *)
Theorem schema_aware_handle_undeclared (_field_to_type : gmap string field_type)
    handle_operator_and_right operator left right field :
  FieldName.handle left = Ok field ->
  _field_to_type !! field = None ->
  SchemaAwareOperatorMap.handle _field_to_type handle_operator_and_right operator left right
  = Raise (EParse (mkParseError ("Field not found: " +:+ field +:+ ".")
                                (Some (ast.col_offset left))
                                (Some (map_to_list _field_to_type).*1))).
Proof.
  intros Hleft Hfield.
  unfold SchemaAwareOperatorMap.handle, OperatorMap.handle,
    SchemaAwareOperatorMap.resolve_field.
  rewrite Hleft. cbn [bind]. rewrite Hfield. reflexivity.
Qed.

Lemma schema_aware_handle_undeclared_witness :
  FieldName.handle (ast.Name "email" 4) = Ok "email"
  /\ example_schema !! "email" = None
  /\ SchemaAwareOperatorMap.handle example_schema
       (fun _ _ _ => Ok FNone) ast.Eq (ast.Name "email" 4) (ast.Str "x" 13)
     = Raise (EParse (mkParseError "Field not found: email." (Some 4)
                        (Some (map_to_list example_schema).*1))).
Proof.
  assert (Hemail : example_schema !! "email" = None) by (vm_compute; reflexivity).
  split; [reflexivity|]. split; [exact Hemail|].
  exact (schema_aware_handle_undeclared example_schema (fun _ _ _ => Ok FNone) ast.Eq
           (ast.Name "email" 4) (ast.Str "x" 13) "email" eq_refl Hemail).
Defined.

(** ** What reaches the field-to-field comparison, and what does not *)

Lemma FieldName_fails_off_path node :
  is_path node = false ->
  exists thing_name col, FieldName.handle node = Raise (unsupported_syntax thing_name col).
Proof.
  induction node; cbn [is_path FieldName.handle]; try discriminate;
    try (intros _; eexists _, _; reflexivity).
  intros Hnode. destruct (IHnode Hnode) as (thing_name & c & ->).
  exists thing_name, c. reflexivity.
Qed.

(** X20: a comparison whose left side is not a field path (a number, a call,
    an attribute of one of these) is handed to the field-to-field
    comparison, whatever its right side: the failure to resolve the left
    side is the "Unsupported syntax" error that [handle_Compare] catches. *)
Theorem left_side_off_path_falls_back B left operator ops right col c :
  is_path left = false ->
  ProjectionSchemaFreeParser.handle B (ast.Compare left (operator :: ops) [right] col) c
  = handle_field_comparison B (ast.Compare left (operator :: ops) [right] col).
Proof.
  intros Hleft. destruct (FieldName_fails_off_path left Hleft) as (thing_name & lcol & Hfail).
  unfold ProjectionSchemaFreeParser.handle.
  cbn [ProjectionParser.handle ProjectionParser.handle_Compare].
  unfold ProjectionSchemaFreeOperatorMap.handle, ProjectionMap.handle,
    ProjectionMap.resolve_field. rewrite Hfail. reflexivity.
Qed.

Lemma left_side_off_path_falls_back_witness :
  is_path (ast.Num 1 0) = false
  /\ ProjectionSchemaFreeParser.handle spec_base
       (ast.Compare (ast.Num 1 0) [ast.Eq] [ast.Name "a" 5] 0) tags_array
     = Ok field_comparison_marker.
Proof.
  split; [reflexivity|].
  exact (left_side_off_path_falls_back spec_base (ast.Num 1 0) ast.Eq [] (ast.Name "a" 5) 0
           tags_array eq_refl).
Defined.

(** ** The keywords given to the parser *)

Lemma mapM_ext {A B : Type} (f g : A -> result B) xs :
  Forall (fun x => f x = g x) xs -> mapM f xs = mapM g xs.
Proof.
  induction 1 as [|x xs Hx _ IH]; [reflexivity|].
  cbn [mapM]. rewrite Hx, IH. reflexivity.
Qed.

(** X21: a [compared_field] keyword given to the parser has no effect on an
    expression made of combinations, negations, comparisons and calls: every
    comparison sets the compared field from its own left side. *)
Theorem compared_field_keyword_is_ignored B node given other arr cplx :
  parser_node node = true ->
  ProjectionSchemaFreeParser.handle B node (mkContext given arr cplx)
  = ProjectionSchemaFreeParser.handle B node (mkContext other arr cplx).
Proof.
  unfold ProjectionSchemaFreeParser.handle. revert node.
  fix IH 1. intros node Hnode.
  destruct node as [op values col|op operand col|left ops comparators col|func args col
                    | | | | | | | | ]; try discriminate Hnode.
  - cbn [ProjectionParser.handle]. cbn [parser_node] in Hnode.
    rewrite (mapM_ext
               (fun value => ProjectionParser.handle B
                               (ProjectionSchemaFreeOperatorMap.handle B) value
                               (mkContext given arr cplx))
               (fun value => ProjectionParser.handle B
                               (ProjectionSchemaFreeOperatorMap.handle B) value
                               (mkContext other arr cplx)) values); [reflexivity|].
    revert Hnode. clear -IH. induction values as [|value values IHvalues]; intros Hall.
    + constructor.
    + cbn [forallb] in Hall. apply andb_true_iff in Hall as [Hvalue Hvalues].
      constructor; [exact (IH value Hvalue) | exact (IHvalues Hvalues)].
  - cbn [ProjectionParser.handle]. cbn [parser_node] in Hnode.
    rewrite (IH operand Hnode). reflexivity.
  - reflexivity.
  - reflexivity.
Qed.

Lemma compared_field_keyword_is_ignored_witness :
  parser_node
    (ast.UnaryOp ast.Not
       (ast.BoolOp ast.And
          [equals (ast.Name "tags" 5) (ast.Num 1 13);
           ast.Call (ast.Name "search" 19) [ast.Str "x" 26] 19] 5) 0) = true
  /\ ProjectionSchemaFreeParser.handle spec_base
       (ast.UnaryOp ast.Not
          (ast.BoolOp ast.And
             [equals (ast.Name "tags" 5) (ast.Num 1 13);
              ast.Call (ast.Name "search" 19) [ast.Str "x" 26] 19] 5) 0)
       (mkContext (Some "other") (Some {["tags"]}) None)
     = ProjectionSchemaFreeParser.handle spec_base
         (ast.UnaryOp ast.Not
            (ast.BoolOp ast.And
               [equals (ast.Name "tags" 5) (ast.Num 1 13);
                ast.Call (ast.Name "search" 19) [ast.Str "x" 26] 19] 5) 0)
         (mkContext None (Some {["tags"]}) None).
Proof.
  split; [reflexivity|].
  exact (compared_field_keyword_is_ignored spec_base
           (ast.UnaryOp ast.Not
              (ast.BoolOp ast.And
                 [equals (ast.Name "tags" 5) (ast.Num 1 13);
                  ast.Call (ast.Name "search" 19) [ast.Str "x" 26] 19] 5) 0)
           (Some "other") None (Some {["tags"]}) None eq_refl).
Defined.

(** ** Bytes literals *)

(** [bytes_repr] on the shapes that [repr] distinguishes: plain text, a
    single quote (the delimiter becomes the double quote), a newline and a
    byte outside ASCII. *)
Example bytes_repr_shapes :
  bytes_repr "needle" = "b'needle'"
  /\ bytes_repr "it's" = "b" +:+ dquote +:+ "it's" +:+ dquote
  /\ bytes_repr (String "a" (String "010" "b")) = "b'a\nb'"
  /\ bytes_repr (String "200" EmptyString) = "b'\xc8'"
  /\ bytes_repr "a\b" = "b'a\\b'".
Proof. repeat split. Qed.

(** [search(b"needle")] is translated from the printed form of the bytes. *)
Example search_bytes_literal :
  ProjectionSchemaFreeParser.handle spec_base
    (ast.Call (ast.Name "search" 0) [ast.Bytes "needle" 7] 0) no_context
  = Ok (obj [("$text", obj [("$search", FStr (dquote +:+ "b'needle'" +:+ dquote));
                            ("$caseSensitive", FBool false)])]).
Proof. reflexivity. Qed.
